(** * torrent-play: the HLS stream service

    A shallow embedding of [services/hls_service.go] (the stream registry,
    the stream state machine, the pipeline driver and the segment file
    server) together with the properties of its specification.

    Conventions of the embedding:
    - Go strings are [string]s of bytes; an [error] is its message and the
      nil error is [None];
    - [map[string]*StreamInfo] is a [gmap string addr] next to a heap of
      [StreamInfo] objects, so that a record reached through the map and
      the same record reached through a returned pointer are one object;
    - code that takes the mutex, logs, creates directories or runs the
      transcoder is written in the monad [M], which threads the [World],
      stops at a panic or at a wait that never returns, and publishes the
      world after every section that held the write lock;
    - what the operating system, the torrent client and the transcoder
      answer is read from explicit oracles ([torrent_Client],
      [torrent_Torrent], [Env], [Context]). *)

From stdpp Require Import gmap strings list fin_maps pretty sorting.
From Stdlib Require Import ZArith Ascii String Sorted.

Local Open Scope Z_scope.
Local Open Scope string_scope.
Local Open Scope list_scope.

(* ===================================================================== *)
(** ** Go library functions used by the service *)
(* ===================================================================== *)

Fixpoint string_drop (n : nat) (s : string) : string :=
  match n, s with
  | O, _ => s
  | S n', String _ s' => string_drop n' s'
  | S _, EmptyString => EmptyString
  end.

(** [strings.HasPrefix(s, prefix)] *)
Fixpoint strings_HasPrefix (s prefix : string) {struct prefix} : bool :=
  match prefix, s with
  | EmptyString, _ => true
  | String a prefix', String b s' => Ascii.eqb a b && strings_HasPrefix s' prefix'
  | String _ _, EmptyString => false
  end.

(** [strings.TrimPrefix(s, prefix)] *)
Definition strings_TrimPrefix (s prefix : string) : string :=
  if strings_HasPrefix s prefix then string_drop (String.length prefix) s else s.

(** [strings.Contains(s, substr)] *)
Fixpoint strings_Contains (s substr : string) : bool :=
  strings_HasPrefix s substr ||
  match s with
  | EmptyString => false
  | String _ s' => strings_Contains s' substr
  end.

(** [strings.Cut(s, sep)]: the text before and after the first [sep]. *)
Fixpoint strings_Cut (s sep : string) : option (string * string) :=
  if strings_HasPrefix s sep then Some (EmptyString, string_drop (String.length sep) s)
  else match s with
       | EmptyString => None
       | String c s' =>
           match strings_Cut s' sep with
           | Some (before, after) => Some (String c before, after)
           | None => None
           end
       end.

(** The loop of [strings.genSplit]: at most [n] cuts, the rest unsplit. *)
Fixpoint genSplit (s sep : string) (n : nat) : list string :=
  match n with
  | O => [s]
  | S n' =>
      match strings_Cut s sep with
      | Some (before, after) => before :: genSplit after sep n'
      | None => [s]
      end
  end.

(** [strings.SplitN(s, sep, n)] for a non-empty [sep] and [n >= 0]. *)
Definition strings_SplitN (s sep : string) (n : nat) : list string :=
  match n with
  | O => []
  | S n' => genSplit s sep n'
  end.

(** [strings.Join(elems, sep)] *)
Fixpoint strings_Join (elems : list string) (sep : string) : string :=
  match elems with
  | [] => EmptyString
  | [e] => e
  | e :: rest => e +:+ sep +:+ strings_Join rest sep
  end.

Definition lower_byte (c : ascii) : ascii :=
  let n := nat_of_ascii c in
  if ((65 <=? n) && (n <=? 90))%nat then ascii_of_nat (n + 32) else c.

(** [strings.ToLower(s)] on ASCII text. *)
Fixpoint strings_ToLower (s : string) : string :=
  match s with
  | EmptyString => EmptyString
  | String c s' => String (lower_byte c) (strings_ToLower s')
  end.

(** All the pieces of [s] between separators [c]. *)
Fixpoint split_byte (c : ascii) (s : string) : list string :=
  match s with
  | EmptyString => [EmptyString]
  | String d s' =>
      if Ascii.eqb d c then EmptyString :: split_byte c s'
      else match split_byte c s' with
           | piece :: rest => String d piece :: rest
           | [] => [String d EmptyString]
           end
  end.

(** One step of [filepath.Clean] over the path elements; [out] holds the
    elements kept so far, last one first. *)
Definition clean_step (rooted : bool) (out : list string) (elem : string) : list string :=
  if String.eqb elem "" then out
  else if String.eqb elem "." then out
  else if String.eqb elem ".." then
    match out with
    | top :: out' =>
        if String.eqb top ".." then elem :: out else out'
    | [] => if rooted then [] else [elem]
    end
  else elem :: out.

(** [filepath.Clean(path)] on a Unix system. *)
Definition filepath_Clean (path : string) : string :=
  if String.eqb path "" then "."
  else
    let rooted := strings_HasPrefix path "/" in
    let out := rev (fold_left (clean_step rooted) (split_byte "/" path) []) in
    if rooted then "/" +:+ strings_Join out "/"
    else match out with
         | [] => "."
         | _ => strings_Join out "/"
         end.

(** [filepath.Join(elem...)]: from the first non-empty element on, join
    with the separator and clean. *)
Fixpoint filepath_Join (elem : list string) : string :=
  match elem with
  | [] => EmptyString
  | e :: rest =>
      if String.eqb e "" then filepath_Join rest
      else filepath_Clean (strings_Join elem "/")
  end.

(** [fmt.Sprintf("%d", n)] *)
Definition Sprintf_d (n : Z) : string := pretty n.

(* ===================================================================== *)
(** ** Data model *)
(* ===================================================================== *)

Inductive StreamState :=
| StateInitializing
| StateGettingInfo
| StateDownloading
| StateTranscoding
| StateReady
| StateError.

Global Instance StreamState_eq_dec : EqDecision StreamState.
Proof. solve_decision. Defined.

(** The string value of each constant. *)
Definition StreamState_string (s : StreamState) : string :=
  match s with
  | StateInitializing => "initializing"
  | StateGettingInfo => "getting_info"
  | StateDownloading => "downloading"
  | StateTranscoding => "transcoding"
  | StateReady => "ready"
  | StateError => "error"
  end.

(** A Go [error] by its message. *)
Definition error := string.

(** [fmt.Errorf(prefix + "%w", err)] *)
Definition Errorf_w (prefix : string) (err : error) : error := prefix +:+ err.

Inductive result (A : Type) :=
| Ok (a : A)
| Err (e : error).
Arguments Ok {A} a.
Arguments Err {A} e.

(** What the service consumes of a [*torrent.File]. *)
Record torrent_File := {
  file_Path : string;
  file_Length : Z
}.

(** What the service consumes of a [*torrent.Torrent]: whether the
    [GotInfo()] channel is ever closed, whether [Info()] is non-nil then,
    and the files. *)
Record torrent_Torrent := {
  torrent_GotInfo : bool;
  torrent_Info : bool;
  torrent_Files : list torrent_File
}.

Record torrent_Client := {
  AddMagnet : string -> result torrent_Torrent
}.

Record StreamInfo := {
  ID : string;
  MagnetURI : string;
  State : StreamState;
  HlsDir : string;
  Error : option error;
  Torrent : option torrent_Torrent;
  File : option torrent_File
}.

Definition set_State (v : StreamState) (r : StreamInfo) : StreamInfo :=
  {| ID := ID r; MagnetURI := MagnetURI r; State := v; HlsDir := HlsDir r;
     Error := Error r; Torrent := Torrent r; File := File r |}.
Definition set_HlsDir (v : string) (r : StreamInfo) : StreamInfo :=
  {| ID := ID r; MagnetURI := MagnetURI r; State := State r; HlsDir := v;
     Error := Error r; Torrent := Torrent r; File := File r |}.
Definition set_Error (v : option error) (r : StreamInfo) : StreamInfo :=
  {| ID := ID r; MagnetURI := MagnetURI r; State := State r; HlsDir := HlsDir r;
     Error := v; Torrent := Torrent r; File := File r |}.
Definition set_Torrent (v : option torrent_Torrent) (r : StreamInfo) : StreamInfo :=
  {| ID := ID r; MagnetURI := MagnetURI r; State := State r; HlsDir := HlsDir r;
     Error := Error r; Torrent := v; File := File r |}.
Definition set_File (v : option torrent_File) (r : StreamInfo) : StreamInfo :=
  {| ID := ID r; MagnetURI := MagnetURI r; State := State r; HlsDir := HlsDir r;
     Error := Error r; Torrent := Torrent r; File := v |}.

(** A [*StreamInfo]. *)
Abbreviation addr := nat.

(** The immutable fields of [HlsService]; its [streams] map is mutable
    and lives in the [World]. *)
Record HlsService := {
  client : torrent_Client;
  baseTempDir : string;
  listenAddr : string
}.

Inductive ProcState :=
| Running
| Exited (err : option error).

(** A child process started with [cmd.Start()]. *)
Record Process := {
  proc_argv : list string;
  proc_state : ProcState
}.

Record World := {
  streams : gmap string addr;     (* s.streams *)
  heap : list StreamInfo;         (* the objects behind the pointers *)
  dirs : gset string;             (* directories that exist *)
  files : gmap string string;     (* regular files by path *)
  procs : list Process;           (* child processes *)
  logged : list string            (* lines written with log.Printf *)
}.

Definition with_streams (f : gmap string addr -> gmap string addr) (w : World) : World :=
  {| streams := f (streams w); heap := heap w; dirs := dirs w; files := files w;
     procs := procs w; logged := logged w |}.
Definition with_heap (f : list StreamInfo -> list StreamInfo) (w : World) : World :=
  {| streams := streams w; heap := f (heap w); dirs := dirs w; files := files w;
     procs := procs w; logged := logged w |}.
Definition with_dirs (f : gset string -> gset string) (w : World) : World :=
  {| streams := streams w; heap := heap w; dirs := f (dirs w); files := files w;
     procs := procs w; logged := logged w |}.
Definition with_files (f : gmap string string -> gmap string string) (w : World) : World :=
  {| streams := streams w; heap := heap w; dirs := dirs w; files := f (files w);
     procs := procs w; logged := logged w |}.
Definition with_procs (f : list Process -> list Process) (w : World) : World :=
  {| streams := streams w; heap := heap w; dirs := dirs w; files := files w;
     procs := f (procs w); logged := logged w |}.
Definition with_logged (f : list string -> list string) (w : World) : World :=
  {| streams := streams w; heap := heap w; dirs := dirs w; files := files w;
     procs := procs w; logged := f (logged w) |}.

(** The record a stream id resolves to, as a reader holding the read lock
    sees it. *)
Definition lookup_stream (w : World) (streamID : string) : option StreamInfo :=
  match streams w !! streamID with
  | Some info => heap w !! info
  | None => None
  end.

(** The state a reader observes for [streamID]. *)
Definition observed_state (streamID : string) (w : World) : option StreamState :=
  State <$> lookup_stream w streamID.

(* ===================================================================== *)
(** ** The monad of the service code *)
(* ===================================================================== *)

Inductive Outcome (A : Type) :=
| Ret (a : A)           (* the call returned *)
| Panic (msg : string)  (* the goroutine panicked: the process dies *)
| Block.                (* the goroutine waits for ever *)
Arguments Ret {A} a.
Arguments Panic {A} msg.
Arguments Block {A}.

(** A computation: from a world to an outcome, the world it leaves and the
    worlds it made visible when it released the write lock, oldest first. *)
Definition M (A : Type) : Type := World -> Outcome A * World * list World.

Definition retM {A} (a : A) : M A := fun w => (Ret a, w, []).

Definition bindM {A B} (m : M A) (k : A -> M B) : M B :=
  fun w =>
    match m w with
    | (Ret a, w1, t1) =>
        match k a w1 with
        | (o, w2, t2) => (o, w2, t1 ++ t2)
        end
    | (Panic msg, w1, t1) => (Panic msg, w1, t1)
    | (Block, w1, t1) => (Block, w1, t1)
    end.

Notation "x <- m ;; k" := (bindM m (fun x => k))
  (at level 100, m at next level, right associativity).
Notation "m ;;; k" := (bindM m (fun _ => k))
  (at level 100, right associativity).

(** [s.mu.Lock(); body; s.mu.Unlock()] *)
Definition locked {A} (body : World -> Outcome A * World) : M A :=
  fun w => match body w with (o, w') => (o, w', [w']) end.

(** An effect outside the lock. *)
Definition effect (f : World -> World) : M unit := fun w => (Ret tt, f w, []).

Definition blockM {A} : M A := fun w => (Block, w, []).

(** [log.Printf] of an already formatted line. *)
Definition log_line (line : string) (w : World) : World :=
  with_logged (fun l => l ++ [line]) w.
Definition log_Printf (line : string) : M unit := effect (log_line line).

(** [<-ch] on a channel that is closed eventually ([true]) or never. *)
Definition receive (closed : bool) : M unit :=
  if closed then retM tt else blockM.

Definition outcome_of {A} (r : Outcome A * World * list World) : Outcome A := r.1.1.
Definition world_of {A} (r : Outcome A * World * list World) : World := r.1.2.
Definition trace_of {A} (r : Outcome A * World * list World) : list World := r.2.

(* ===================================================================== *)
(** ** Oracles for the environment *)
(* ===================================================================== *)

(** [ctx.Err()] as the pipeline reads it: [None] until the context is
    cancelled, the cancellation cause from then on.  The service consults
    it at one place only, after [cmd.Wait()] has returned. *)
Record Context := {
  ctx_Err : option error
}.

(** What [cmd.Wait()] does: it returns once the process has exited (with
    nil or with an error), or the process never exits. *)
Inductive WaitResult :=
| WaitReturns (err : option error)
| WaitNever.

(** The answers of the operating system and of the transcoder to one run
    of the pipeline. *)
Record Env := {
  os_MkdirTemp : string -> string -> result string;
  cmd_StderrPipe : option error;
  cmd_Start : option error;
  ffmpeg_stderr : list string;   (* the lines the scanner reads *)
  cmd_Wait : WaitResult
}.

(** A goroutine started with [go]. *)
Inductive Goroutine :=
| go_manageStream (ctx : Context) (streamID : string) (t : torrent_Torrent).

(* ===================================================================== *)
(** ** The stream registry *)
(* ===================================================================== *)

(** A service right after [NewHlsService]: no stream yet, the base
    directory created. *)
Definition NewWorld (tempDir : string) : World :=
  {| streams := ∅; heap := []; dirs := {[ tempDir ]}; files := ∅;
     procs := []; logged := ["Created base temporary directory: " +:+ tempDir] |}.

(** [&StreamInfo{ID: streamID, MagnetURI: magnetURI, State: StateInitializing}] *)
Definition new_StreamInfo (streamID magnetURI : string) : StreamInfo :=
  {| ID := streamID; MagnetURI := magnetURI; State := StateInitializing;
     HlsDir := ""; Error := None; Torrent := None; File := None |}.

(** The first critical section of [PrepareStream]: allocate the record
    and store its pointer under the id. *)
Definition register_stream (streamID magnetURI : string) : M addr :=
  locked (fun w =>
    let info := List.length (heap w) in
    (Ret info,
     with_streams (insert streamID info)
       (with_heap (fun h => h ++ [new_StreamInfo streamID magnetURI]) w))).

(** [GetStreamInfo]: the pointer stored under the id, and whether there is one. *)
Definition GetStreamInfo (streamID : string) (w : World) : option addr * bool :=
  match streams w !! streamID with
  | Some info => (Some info, true)
  | None => (None, false)
  end.

(** [info.State = state; info.Error = err] *)
Definition transition (state : StreamState) (err : option error) (r : StreamInfo)
    : StreamInfo :=
  set_Error err (set_State state r).

Definition updateStreamState (streamID : string) (state : StreamState)
    (err : option error) : M unit :=
  locked (fun w =>
    match streams w !! streamID with
    | Some info =>
        let w' := with_heap (alter (transition state err) info) w in
        match err with
        | Some e => (Ret tt, log_line ("[" +:+ streamID +:+ "] Error state: " +:+ e) w')
        | None =>
            (Ret tt, log_line ("[" +:+ streamID +:+ "] State changed to: "
                                +:+ StreamState_string state) w')
        end
    | None => (Ret tt, w)
    end).

(** A read through a pointer. *)
Definition load {A} (info : addr) (field : StreamInfo -> A) : M A :=
  fun w =>
    match heap w !! info with
    | Some r => (Ret (field r), w, [])
    | None => (Panic "invalid memory address or nil pointer dereference", w, [])
    end.

(** A write through a pointer, outside the lock. *)
Definition store (info : addr) (f : StreamInfo -> StreamInfo) : M unit :=
  effect (with_heap (alter f info)).

(** [s.mu.Lock(); s.streams[streamID].<field> = v; s.mu.Unlock()]: a
    missing id yields a nil pointer, and the assignment panics. *)
Definition locked_assign (streamID : string) (f : StreamInfo -> StreamInfo) : M unit :=
  locked (fun w =>
    match streams w !! streamID with
    | Some info => (Ret tt, with_heap (alter f info) w)
    | None => (Panic "invalid memory address or nil pointer dereference", w)
    end).

(* ===================================================================== *)
(** ** The transcoder *)
(* ===================================================================== *)

Definition ffmpeg_argv (hlsDir : string) : list string :=
  let playlistPath := filepath_Join [hlsDir; "playlist.m3u8"] in
  let segmentPattern := filepath_Join [hlsDir; "segment%03d.ts"] in
  ["ffmpeg"; "-i"; "pipe:0"; "-c:v"; "libx264"; "-c:a"; "aac"; "-f"; "hls";
   "-hls_time"; "10"; "-hls_list_size"; "0";
   "-hls_segment_filename"; segmentPattern; playlistPath].

(** The goroutine that logs the transcoder's diagnostic output. *)
Fixpoint scan_stderr (streamID : string) (lines : list string) : M unit :=
  match lines with
  | [] => retM tt
  | line :: rest =>
      log_Printf ("ffmpeg [" +:+ streamID +:+ "]: " +:+ line) ;;;
      (if strings_Contains (strings_ToLower line) "error"
          || strings_Contains (strings_ToLower line) "failed"
       then log_Printf ("Error detected in ffmpeg output for stream " +:+ streamID)
       else retM tt) ;;;
      scan_stderr streamID rest
  end.

(** The state of the last started process becomes [st]. *)
Definition set_last_proc (st : ProcState) (ps : list Process) : list Process :=
  alter (fun p => {| proc_argv := proc_argv p; proc_state := st |}) (pred (List.length ps)) ps.

(** [transcodeToHLS].  The reader over the torrent file is the standard
    input of the process and leaves no trace here.  The scanner goroutine
    runs while the caller waits; its log lines are placed between the
    caller's "Waiting" line and the return of [cmd.Wait()]. *)
Definition transcodeToHLS (env : Env) (ctx : Context) (streamID : string)
    (file : torrent_File) (hlsDir : string) : M (option error) :=
  match cmd_StderrPipe env with
  | Some err => retM (Some (Errorf_w "error creating stderr pipe for ffmpeg: " err))
  | None =>
  match cmd_Start env with
  | Some err => retM (Some (Errorf_w "error starting ffmpeg: " err))
  | None =>
      effect (with_procs (fun ps =>
        ps ++ [{| proc_argv := ffmpeg_argv hlsDir; proc_state := Running |}])) ;;;
      log_Printf ("[" +:+ streamID +:+ "] Waiting for ffmpeg to finish...") ;;;
      scan_stderr streamID (ffmpeg_stderr env) ;;;
      match cmd_Wait env with
      | WaitNever => blockM
      | WaitReturns err =>
          effect (with_procs (set_last_proc (Exited err))) ;;;
          match err with
          | Some err =>
              match ctx_Err ctx with
              | Some cause =>
                  retM (Some (Errorf_w "ffmpeg stopped due to context cancellation: " cause))
              | None => retM (Some (Errorf_w "ffmpeg command failed: " err))
              end
          | None =>
              log_Printf ("[" +:+ streamID +:+ "] ffmpeg finished successfully.") ;;;
              retM None
          end
      end
  end
  end.

(* ===================================================================== *)
(** ** The pipeline *)
(* ===================================================================== *)

(** The selection loop of [manageStream]; [largestFile] is the pointer
    variable of the same name, nil being [None]. *)
Fixpoint select_largest (files : list torrent_File) (largestFile : option torrent_File)
    : option torrent_File :=
  match files with
  | [] => largestFile
  | file :: rest =>
      select_largest rest
        (match largestFile with
         | None => Some file
         | Some l => if file_Length file >? file_Length l then Some file else largestFile
         end)
  end.

(** [os.RemoveAll(path)]: the directory and everything below it. *)
Definition os_RemoveAll (path : string) (w : World) : World :=
  with_files (filter (fun kv => strings_HasPrefix kv.1 (path +:+ "/") = false))
    (with_files (delete path) (with_dirs (fun d => d ∖ {[ path ]}) w)).

Definition manageStream (s : HlsService) (env : Env) (ctx : Context)
    (streamID : string) (t : torrent_Torrent) : M unit :=
  receive (torrent_GotInfo t) ;;;
  if negb (torrent_Info t) then
    updateStreamState streamID StateError (Some "torrent info not available")
  else
    match select_largest (torrent_Files t) None with
    | None => updateStreamState streamID StateError (Some "no files found in torrent")
    | Some largestFile =>
        log_Printf ("[" +:+ streamID +:+ "] Selected largest file: "
                    +:+ file_Path largestFile +:+ " ("
                    +:+ Sprintf_d (file_Length largestFile) +:+ " bytes)") ;;;
        locked_assign streamID (set_File (Some largestFile)) ;;;
        updateStreamState streamID StateDownloading None ;;;
        match os_MkdirTemp env (baseTempDir s) ("hls-" +:+ streamID +:+ "-") with
        | Err err =>
            updateStreamState streamID StateError
              (Some (Errorf_w "failed to create HLS temp dir: " err))
        | Ok hlsDir =>
            effect (with_dirs (fun d => d ∪ {[ hlsDir ]})) ;;;
            log_Printf ("[" +:+ streamID +:+ "] Created HLS directory: " +:+ hlsDir) ;;;
            locked_assign streamID (set_HlsDir hlsDir) ;;;
            updateStreamState streamID StateTranscoding None ;;;
            err <- transcodeToHLS env ctx streamID largestFile hlsDir ;;
            match err with
            | Some err =>
                updateStreamState streamID StateError
                  (Some (Errorf_w "transcoding failed: " err)) ;;;
                effect (os_RemoveAll hlsDir)
            | None => updateStreamState streamID StateReady None
            end
        end
    end.

(** [PrepareStream]; [now] is the clock reading [time.Now().UnixNano()]
    taken by the call.  The third component of the result is the goroutine
    the call starts, if any. *)
Definition PrepareStream (s : HlsService) (ctx : Context) (magnetURI : string) (now : Z)
    : M (addr * option error * option Goroutine) :=
  let streamID := Sprintf_d now in
  info <- register_stream streamID magnetURI ;;
  log_Printf ("[" +:+ streamID +:+ "] Adding magnet: " +:+ magnetURI) ;;;
  match AddMagnet (client s) magnetURI with
  | Err err =>
      updateStreamState streamID StateError (Some (Errorf_w "error adding magnet: " err)) ;;;
      info_Error <- load info Error ;;
      retM (info, info_Error, None)
  | Ok t =>
      store info (set_Torrent (Some t)) ;;;
      updateStreamState streamID StateGettingInfo None ;;;
      retM (info, None, Some (go_manageStream ctx streamID t))
  end.

(** Run a goroutine to its end. *)
Definition run_goroutine (s : HlsService) (env : Env) (g : Goroutine) : M unit :=
  match g with
  | go_manageStream ctx streamID t => manageStream s env ctx streamID t
  end.

(** One stream from its creation to the end of its pipeline. *)
Definition stream_lifecycle (s : HlsService) (env : Env) (ctx : Context)
    (magnetURI : string) (now : Z) : M unit :=
  r <- PrepareStream s ctx magnetURI now ;;
  match r.2 with
  | Some g => run_goroutine s env g
  | None => retM tt
  end.

(* ===================================================================== *)
(** ** The segment file server *)
(* ===================================================================== *)

Record Request := {
  Method : string;
  URL_Path : string
}.

(** What the handler does with the response writer. *)
Inductive Reply :=
| http_NotFound
| http_Error (msg : string) (code : Z)
| WriteHeader (header : list (string * string)) (code : Z)
| http_ServeFile (header : list (string * string)) (name : string).

Definition cors_header : list (string * string) :=
  [("Access-Control-Allow-Origin", "*");
   ("Access-Control-Allow-Methods", "GET, OPTIONS");
   ("Access-Control-Allow-Headers", "Content-Type")].

Definition ServeHTTP (r : Request) : M Reply :=
  let parts := strings_SplitN (strings_TrimPrefix (URL_Path r) "/") "/" 3 in
  match parts with
  | [_; streamID; fileName] =>
      fun w =>
        match streams w !! streamID with
        | None =>
            (log_Printf ("Stream not found or not ready: " +:+ streamID) ;;;
             retM http_NotFound) w
        | Some stream =>
            if strings_Contains fileName ".." then
              retM (http_Error "Invalid path" 400) w
            else
              (stream_HlsDir <- load stream HlsDir ;;
               let filePath := filepath_Join [stream_HlsDir; fileName] in
               if String.eqb (Method r) "OPTIONS" then
                 retM (WriteHeader cors_header 200)
               else
                 retM (http_ServeFile cors_header filePath)) w
        end
  | _ => retM http_NotFound
  end.

(** The status line and body a reply puts on the wire; [http.ServeFile]
    sends the bytes of a regular file, and 404 for a name it cannot open. *)
Definition reply_status (w : World) (rep : Reply) : Z :=
  match rep with
  | http_NotFound => 404
  | http_Error _ code => code
  | WriteHeader _ code => code
  | http_ServeFile _ name =>
      match files w !! name with
      | Some _ => 200
      | None => 404
      end
  end.

Definition reply_body (w : World) (rep : Reply) : string :=
  match rep with
  | http_NotFound => "404 page not found"
  | http_Error msg _ => msg
  | WriteHeader _ _ => ""
  | http_ServeFile _ name =>
      match files w !! name with
      | Some content => content
      | None => "404 page not found"
      end
  end.

(** The file a reply reads, if any. *)
Definition reply_file (rep : Reply) : option string :=
  match rep with
  | http_ServeFile _ name => Some name
  | _ => None
  end.

(* ===================================================================== *)
(** ** Vocabulary of the specification *)
(* ===================================================================== *)

(** A client-error status. *)
Definition client_error (code : Z) : Prop := 400 <= code < 500.

(** The request [<method> /hls/<streamID>/<fileName>]. *)
Definition segment_request (method streamID fileName : string) : Request :=
  {| Method := method; URL_Path := "/hls/" +:+ streamID +:+ "/" +:+ fileName |}.

(** The contract of the segment server in the words of the
    specification: not-found when the stream is unknown or its working
    directory unset, otherwise the named file of the working directory. *)
Definition serves_as_specified (w : World) (streamID fileName : string) : Prop :=
  let res := ServeHTTP (segment_request "GET" streamID fileName) w in
  match lookup_stream w streamID with
  | None => outcome_of res = Ret http_NotFound
  | Some r =>
      if decide (HlsDir r = "") then outcome_of res = Ret http_NotFound
      else exists header,
          outcome_of res = Ret (http_ServeFile header (filepath_Join [HlsDir r; fileName]))
  end.

(** The stream id resolves to the object at [info], which holds [r]. *)
Definition points_to (w : World) (streamID : string) (info : addr) (r : StreamInfo) : Prop :=
  streams w !! streamID = Some info /\ heap w !! info = Some r.

(** What [transcodeToHLS] returns, read off the oracles. *)
Definition transcode_result (env : Env) (ctx : Context) : Outcome (option error) :=
  match cmd_StderrPipe env with
  | Some err => Ret (Some (Errorf_w "error creating stderr pipe for ffmpeg: " err))
  | None =>
      match cmd_Start env with
      | Some err => Ret (Some (Errorf_w "error starting ffmpeg: " err))
      | None =>
          match cmd_Wait env with
          | WaitNever => Block
          | WaitReturns (Some err) =>
              match ctx_Err ctx with
              | Some cause =>
                  Ret (Some (Errorf_w "ffmpeg stopped due to context cancellation: " cause))
              | None => Ret (Some (Errorf_w "ffmpeg command failed: " err))
              end
          | WaitReturns None => Ret None
          end
      end
  end.

(** The successive values of a stream's record in a run of
    [manageStream] that finds it holding [r]: one value for every section
    that held the write lock, oldest first. *)
Definition manageStream_records (s : HlsService) (env : Env) (ctx : Context)
    (streamID : string) (t : torrent_Torrent) (r : StreamInfo) : list StreamInfo :=
  if negb (torrent_GotInfo t) then []
  else if negb (torrent_Info t) then
    [transition StateError (Some "torrent info not available") r]
  else
    match select_largest (torrent_Files t) None with
    | None => [transition StateError (Some "no files found in torrent") r]
    | Some largestFile =>
        let r1 := set_File (Some largestFile) r in
        let r2 := transition StateDownloading None r1 in
        r1 :: r2 ::
        match os_MkdirTemp env (baseTempDir s) ("hls-" +:+ streamID +:+ "-") with
        | Err err =>
            [transition StateError (Some (Errorf_w "failed to create HLS temp dir: " err)) r2]
        | Ok hlsDir =>
            let r3 := set_HlsDir hlsDir r2 in
            let r4 := transition StateTranscoding None r3 in
            r3 :: r4 ::
            match transcode_result env ctx with
            | Ret (Some err) =>
                [transition StateError (Some (Errorf_w "transcoding failed: " err)) r4]
            | Ret None => [transition StateReady None r4]
            | _ => []
            end
        end
    end.







(** The states observed for [streamID] in the worlds a run published. *)
Definition observations {A} (streamID : string) (res : Outcome A * World * list World)
    : list StreamState :=
  omap (observed_state streamID) (trace_of res).


(** The goroutine a call of [PrepareStream] started. *)
Definition started (created : Outcome (addr * option error * option Goroutine)
                              * World * list World) : option Goroutine :=
  match outcome_of created with
  | Ret (_, _, g) => g
  | _ => None
  end.

(** The pipeline of a created stream, run from the world [w']. *)
Definition pipeline_run (s : HlsService) (env : Env)
    (created : Outcome (addr * option error * option Goroutine) * World * list World)
    (w' : World) : Outcome unit * World * list World :=
  match started created with
  | Some g => run_goroutine s env g w'
  | None => retM tt w'
  end.

(** The same run of the transcoder with other diagnostic output. *)
Definition with_stderr (lines : list string) (env : Env) : Env :=
  {| os_MkdirTemp := os_MkdirTemp env; cmd_StderrPipe := cmd_StderrPipe env;
     cmd_Start := cmd_Start env; ffmpeg_stderr := lines; cmd_Wait := cmd_Wait env |}.

(** [cmd.Start()] is reached and fails. *)
Definition start_fails (env : Env) : Prop :=
  cmd_StderrPipe env = None /\ is_Some (cmd_Start env).

(** [cmd.Wait()] is reached and returns an error. *)
Definition wait_fails (env : Env) : Prop :=
  cmd_StderrPipe env = None /\ cmd_Start env = None /\
  exists err, cmd_Wait env = WaitReturns (Some err).

(** [transcodeToHLS] returns an error. *)
Definition returns_error (res : Outcome (option error) * World * list World) : Prop :=
  exists err, outcome_of res = Ret (Some err).

(** The state of the transcoder process once [cmd.Wait()] has returned,
    or while it never does. *)
Definition state_after_wait (env : Env) : ProcState :=
  match cmd_Wait env with
  | WaitNever => Running
  | WaitReturns err => Exited err
  end.

(** The record was created at clock reading [t]. *)
Definition created_at (r : StreamInfo) (t : Z) : Prop := ID r = Sprintf_d t.

(** A stream id no record ever created carries; the heap keeps every
    record ever created. *)
Definition fresh_id (w : World) (streamID : string) : Prop :=
  forall r, r ∈ heap w -> ID r <> streamID.

(** [updateStreamState] would report a missing id to its caller if the
    caller could tell, from what the call hands back, whether the id was
    found. *)
Definition transition_reports_not_found : Prop :=
  exists told : Outcome unit -> bool,
    forall streamID state err w,
      told (outcome_of (updateStreamState streamID state err w)) = true
      <-> streams w !! streamID = None.

(* ===================================================================== *)
(** ** Sample data *)
(* ===================================================================== *)

Module Sample.

Definition movie : torrent_Torrent :=
  {| torrent_GotInfo := true; torrent_Info := true;
     torrent_Files := [ {| file_Path := "sample.txt"; file_Length := 100 |};
                        {| file_Path := "movie.mkv"; file_Length := 5000 |} ] |}.

(** A client that accepts what starts like a magnet link. *)
Definition cl : torrent_Client :=
  {| AddMagnet := fun magnetURI =>
       if strings_HasPrefix magnetURI "magnet:" then Ok movie
       else Err "unrecognized scheme" |}.

(** A link the client refuses. *)
Definition not_a_magnet : string := "http://example.org/movie.torrent".

Definition svc : HlsService :=
  {| client := cl; baseTempDir := "/tmp/torrent-hls-service1"; listenAddr := "localhost:8080" |}.

Definition background : Context := {| ctx_Err := None |}.
Definition cancelled : Context := {| ctx_Err := Some "context canceled" |}.

(** A run in which everything works. *)
Definition env_ok : Env :=
  {| os_MkdirTemp := fun dir pattern => Ok (dir +:+ "/" +:+ pattern +:+ "001");
     cmd_StderrPipe := None; cmd_Start := None;
     ffmpeg_stderr := ["frame=   10 fps=0.0"; "Error while decoding stream #0:0"];
     cmd_Wait := WaitReturns None |}.

(** A run in which the pipe for the diagnostic output cannot be made. *)
Definition env_no_pipe : Env :=
  {| os_MkdirTemp := os_MkdirTemp env_ok;
     cmd_StderrPipe := Some "pipe: too many open files"; cmd_Start := None;
     ffmpeg_stderr := []; cmd_Wait := WaitReturns None |}.

(** A run in which the transcoder does not exit by itself. *)
Definition env_hangs : Env :=
  {| os_MkdirTemp := os_MkdirTemp env_ok; cmd_StderrPipe := None; cmd_Start := None;
     ffmpeg_stderr := ["frame=   10 fps=0.0"]; cmd_Wait := WaitNever |}.

(** The service just started, in a directory that holds [go.mod]. *)
Definition w0 : World :=
  with_files (insert "go.mod" "module torrent-play") (NewWorld (baseTempDir svc)).

(** After one [PrepareStream] at clock reading 17, its pipeline not yet
    scheduled: the stream is registered and has no working directory. *)
Definition w_prepared : World :=
  world_of (PrepareStream svc background "magnet:?xt=urn:btih:c12f" 17 w0).

(** After the whole pipeline of that stream has run. *)
Definition w_ready : World :=
  world_of (stream_lifecycle svc env_ok background "magnet:?xt=urn:btih:c12f" 17 w0).


(** Two creations that read the same clock value, the second one with a
    magnet link the client refuses; then the pipeline of the first one
    runs. *)
Definition first_call := PrepareStream svc background "magnet:?xt=urn:btih:c12f" 17 w0.
Definition second_call := PrepareStream svc background not_a_magnet 17 (world_of first_call).

End Sample.

(* ===================================================================== *)
(** ** The handler of /add and the running service *)
(* ===================================================================== *)

(** [NewHlsService]; [mkdir] is the answer of
    [os.MkdirTemp("", "torrent-hls-service")]. *)
Definition NewHlsService (cl : torrent_Client) (addr : string) (mkdir : result string)
    : result (HlsService * World) :=
  match mkdir with
  | Err err => Err (Errorf_w "failed to create base temp dir: " err)
  | Ok tempDir =>
      Ok ({| client := cl; baseTempDir := tempDir; listenAddr := addr |}, NewWorld tempDir)
  end.

(** [handlers.TorrentHandler] *)
Record TorrentHandler := {
  Handler_HlsService : HlsService;
  Handler_ListenAddr : string
}.

(** What [AddTorrentHandler] reads of its request: the method, the value
    of [r.URL.Query().Get("magnet")] (empty when the parameter is absent)
    and [r.Context()]. *)
Record AddRequest := {
  add_Method : string;
  add_magnet : string;
  add_Context : Context
}.

(** What [AddTorrentHandler] writes: an error with its status, or the
    map it encodes as JSON with [Content-Type: application/json]. *)
Inductive AddReply :=
| add_Error (msg : string) (code : Z)
| add_JSON (response : list (string * string)).

(** [fmt.Sprintf("http://%s/hls/%s/playlist.m3u8", addr, id)] *)
Definition hls_url (addr streamID : string) : string :=
  "http://" +:+ addr +:+ "/hls/" +:+ streamID +:+ "/playlist.m3u8".

(** [AddTorrentHandler]; [now] is the clock reading [PrepareStream] takes.
    The second component of the result is the goroutine started on the
    way, if any. *)
Definition AddTorrentHandler (h : TorrentHandler) (r : AddRequest) (now : Z)
    : M (AddReply * option Goroutine) :=
  if negb (String.eqb (add_Method r) "GET") then
    retM (add_Error "Method not allowed" 405, None)
  else
    let magnetURI := add_magnet r in
    if String.eqb magnetURI "" then
      retM (add_Error "Missing 'magnet' query parameter" 400, None)
    else
      log_Printf ("Received request to add magnet: " +:+ magnetURI) ;;;
      res <- PrepareStream (Handler_HlsService h) (add_Context r) magnetURI now ;;
      let streamInfo := res.1.1 in
      match res.1.2 with
      | Some err =>
          log_Printf ("Error preparing stream: " +:+ err) ;;;
          retM (add_Error ("Error preparing stream: " +:+ err) 500, res.2)
      | None =>
          streamInfo_ID <- load streamInfo ID ;;
          let hlsURL := hls_url (Handler_ListenAddr h) streamInfo_ID in
          log_Printf ("Stream " +:+ streamInfo_ID +:+ " prepared. HLS URL: " +:+ hlsURL) ;;;
          streamInfo_State <- load streamInfo State ;;
          retM (add_JSON [("streamId", streamInfo_ID);
                          ("hlsUrl", hlsURL);
                          ("status", StreamState_string streamInfo_State)],
                res.2)
      end.

(** The running process: the world, the goroutines started and not yet
    run, and whether a panic has ended the process. *)
Record System := {
  sys_world : World;
  sys_pending : list Goroutine;
  sys_panicked : bool
}.

(** What happens to the running service: a request for /add, a direct
    call of [PrepareStream], a request for /hls/, or the scheduler running
    one pending goroutine to its end under the answers [env]. *)
Inductive Event :=
| ev_add (r : AddRequest) (now : Z)
| ev_PrepareStream (ctx : Context) (magnetURI : string) (now : Z)
| ev_hls (r : Request)
| ev_run (i : nat) (env : Env).

Definition is_panic {A} (o : Outcome A) : bool :=
  match o with
  | Panic _ => true
  | _ => false
  end.

(** The system after a computation has run in it. *)
Definition sys_after {A} (st : System) (res : Outcome A * World * list World)
    (pending : list Goroutine) : System :=
  {| sys_world := world_of res; sys_pending := pending;
     sys_panicked := is_panic (outcome_of res) |}.

Definition opt_list {A} (o : option A) : list A :=
  match o with
  | Some a => [a]
  | None => []
  end.

(** The goroutine a call of [AddTorrentHandler] started. *)
Definition add_started (res : Outcome (AddReply * option Goroutine) * World * list World)
    : option Goroutine :=
  match outcome_of res with
  | Ret (_, g) => g
  | _ => None
  end.

Definition sys_step (h : TorrentHandler) (st : System) (ev : Event) : System :=
  if sys_panicked st then st
  else
    let s := Handler_HlsService h in
    match ev with
    | ev_add r now =>
        let res := AddTorrentHandler h r now (sys_world st) in
        sys_after st res (sys_pending st ++ opt_list (add_started res))
    | ev_PrepareStream ctx magnetURI now =>
        let res := PrepareStream s ctx magnetURI now (sys_world st) in
        sys_after st res (sys_pending st ++ opt_list (started res))
    | ev_hls r => sys_after st (ServeHTTP r (sys_world st)) (sys_pending st)
    | ev_run i env =>
        match sys_pending st !! i with
        | Some g => sys_after st (run_goroutine s env g (sys_world st)) (delete i (sys_pending st))
        | None => st
        end
    end.

Definition sys_run (h : TorrentHandler) (st : System) (evs : list Event) : System :=
  fold_left (sys_step h) evs st.

(** The service as [main] starts it, in the world [NewHlsService] made. *)
Definition sys_boot (w0 : World) : System :=
  {| sys_world := w0; sys_pending := []; sys_panicked := false |}.

(* ===================================================================== *)
(** ** Invariants of the registry *)
(* ===================================================================== *)

(** Every pointer of the registry refers to an object, and the object
    carries the id it is registered under. *)
Definition registry_ok (w : World) : Prop :=
  forall streamID info, streams w !! streamID = Some info ->
    exists r, heap w !! info = Some r /\ ID r = streamID.

(** A record is in [StateError] exactly when it holds an error. *)
Definition coherent (r : StreamInfo) : Prop :=
  State r = StateError <-> is_Some (Error r).

Definition sound (w : World) : Prop :=
  registry_ok w /\ Forall coherent (heap w).

(** Soundness of the world, as a relation between a world and a later
    one. *)
Definition sound_kept (w w' : World) : Prop := sound w -> sound w'.

(** From [w] to [w'] no id left the registry, no object left the heap, and
    every object kept its id and its magnet link. *)
Definition keeps_identity (w w' : World) : Prop :=
  (forall streamID, is_Some (streams w !! streamID) -> is_Some (streams w' !! streamID)) /\
  (forall info r, heap w !! info = Some r ->
     exists r', heap w' !! info = Some r' /\ ID r' = ID r /\ MagnetURI r' = MagnetURI r).

(** A field update that leaves the id and the magnet link alone and keeps
    a coherent record coherent. *)
Definition good_update (f : StreamInfo -> StreamInfo) : Prop :=
  forall r, ID (f r) = ID r /\ MagnetURI (f r) = MagnetURI r /\ (coherent r -> coherent (f r)).

(** A relation between worlds that every step of the service code keeps:
    steps that do not touch the registry, the field updates of the
    service, and the registration of a new record. *)
Class Stable (R : World -> World -> Prop) : Prop := {
  stable_refl : forall w, R w w;
  stable_trans : forall w1 w2 w3, R w1 w2 -> R w2 w3 -> R w1 w3;
  stable_silent : forall w w', streams w' = streams w -> heap w' = heap w -> R w w';
  stable_alter : forall w info f, good_update f -> R w (with_heap (alter f info) w);
  stable_register : forall w streamID magnetURI,
    R w (with_streams (insert streamID (List.length (heap w)))
           (with_heap (fun h => h ++ [new_StreamInfo streamID magnetURI]) w))
}.

(** A computation keeps [R]: the world it leaves and every world it
    publishes are related to the world it starts from. *)
Definition respects {A} (R : World -> World -> Prop) (m : M A) : Prop :=
  forall w, R w (world_of (m w)) /\ Forall (R w) (trace_of (m w)).

(** The stream a goroutine works for. *)
Definition goroutine_stream (g : Goroutine) : string :=
  match g with
  | go_manageStream _ streamID _ => streamID
  end.

(** The invariant of the running service. *)
Definition sys_ok (st : System) : Prop :=
  sys_panicked st = false /\
  sound (sys_world st) /\
  forall g, g ∈ sys_pending st -> is_Some (streams (sys_world st) !! goroutine_stream g).

(** The path a cleaned list of elements stands for. *)
Definition path_of_elems (rooted : bool) (elems : list string) : string :=
  if rooted then "/" +:+ strings_Join elems "/"
  else match elems with
       | [] => "."
       | _ => strings_Join elems "/"
       end.

(** The elements [filepath.Clean] keeps of a path. *)
Definition clean_elems (path : string) : list string :=
  rev (fold_left (clean_step (strings_HasPrefix path "/")) (split_byte "/" path) []).

(** How far a run of [manageStream] gets: the file it selects and the
    working directory it makes, when it gets to the transcoder. *)
Definition reaches_transcoder (s : HlsService) (env : Env) (streamID : string)
    (t : torrent_Torrent) : option (torrent_File * string) :=
  if torrent_GotInfo t && torrent_Info t then
    match select_largest (torrent_Files t) None with
    | Some largestFile =>
        match os_MkdirTemp env (baseTempDir s) ("hls-" +:+ streamID +:+ "-") with
        | Ok hlsDir => Some (largestFile, hlsDir)
        | Err _ => None
        end
    | None => None
    end
  else None.

(** The child processes after a run of [transcodeToHLS] that found the
    processes [ps]. *)
Definition transcode_procs (env : Env) (hlsDir : string) (ps : list Process)
    : list Process :=
  match cmd_StderrPipe env, cmd_Start env with
  | None, None =>
      ps ++ [{| proc_argv := ffmpeg_argv hlsDir; proc_state := state_after_wait env |}]
  | _, _ => ps
  end.

(** From [w] to [w'] the registry is the same and no object but the one
    at [info] has changed. *)
Definition only_touches (info : addr) (w w' : World) : Prop :=
  streams w' = streams w /\
  forall a, a <> info -> heap w' !! a = heap w !! a.

(** The path lies below the directory [dir], or is [dir] itself. *)
Definition below (dir path : string) : Prop :=
  path = dir \/ strings_HasPrefix path (dir +:+ "/") = true.

(* ===================================================================== *)
(** ** Other goroutines between the critical sections of a creation *)
(* ===================================================================== *)

(** [PrepareStream] with the steps [others] of other goroutines scheduled
    between its two critical sections: after the [s.mu.Unlock()] that ends
    the registration and before [updateStreamState] takes the lock.  With
    no such step this is [PrepareStream]. *)
Definition PrepareStream_among (others : M unit) (s : HlsService) (ctx : Context)
    (magnetURI : string) (now : Z) : M (addr * option error * option Goroutine) :=
  let streamID := Sprintf_d now in
  info <- register_stream streamID magnetURI ;;
  others ;;;
  log_Printf ("[" +:+ streamID +:+ "] Adding magnet: " +:+ magnetURI) ;;;
  match AddMagnet (client s) magnetURI with
  | Err err =>
      updateStreamState streamID StateError (Some (Errorf_w "error adding magnet: " err)) ;;;
      info_Error <- load info Error ;;
      retM (info, info_Error, None)
  | Ok t =>
      store info (set_Torrent (Some t)) ;;;
      updateStreamState streamID StateGettingInfo None ;;;
      retM (info, None, Some (go_manageStream ctx streamID t))
  end.

(** [AddTorrentHandler] around such a call. *)
Definition AddTorrentHandler_among (others : M unit) (h : TorrentHandler) (r : AddRequest)
    (now : Z) : M (AddReply * option Goroutine) :=
  if negb (String.eqb (add_Method r) "GET") then
    retM (add_Error "Method not allowed" 405, None)
  else
    let magnetURI := add_magnet r in
    if String.eqb magnetURI "" then
      retM (add_Error "Missing 'magnet' query parameter" 400, None)
    else
      log_Printf ("Received request to add magnet: " +:+ magnetURI) ;;;
      res <- PrepareStream_among others (Handler_HlsService h) (add_Context r) magnetURI now ;;
      let streamInfo := res.1.1 in
      match res.1.2 with
      | Some err =>
          log_Printf ("Error preparing stream: " +:+ err) ;;;
          retM (add_Error ("Error preparing stream: " +:+ err) 500, res.2)
      | None =>
          streamInfo_ID <- load streamInfo ID ;;
          let hlsURL := hls_url (Handler_ListenAddr h) streamInfo_ID in
          log_Printf ("Stream " +:+ streamInfo_ID +:+ " prepared. HLS URL: " +:+ hlsURL) ;;;
          streamInfo_State <- load streamInfo State ;;
          retM (add_JSON [("streamId", streamInfo_ID);
                          ("hlsUrl", hlsURL);
                          ("status", StreamState_string streamInfo_State)],
                res.2)
      end.

(** The steps [others], run right after a creation has registered its
    record in [w], leave the id to that creation: they return, and the id
    then still resolves to the object the creation allocated, which holds
    [r]. *)
Definition undisturbed (others : M unit) (streamID magnetURI : string) (w : World)
    (r : StreamInfo) : Prop :=
  let w1 := world_of (register_stream streamID magnetURI w) in
  outcome_of (others w1) = Ret tt /\
  points_to (world_of (others w1)) streamID (List.length (heap w)) r.

(* ===================================================================== *)
(** ** Sample data for the running service *)
(* ===================================================================== *)

Module SampleService.

Definition handler : TorrentHandler :=
  {| Handler_HlsService := Sample.svc; Handler_ListenAddr := "localhost:8080" |}.

(** [GET /add?magnet=magnet:?xt=urn:btih:c12f] *)
Definition add_movie : AddRequest :=
  {| add_Method := "GET"; add_magnet := "magnet:?xt=urn:btih:c12f";
     add_Context := Sample.background |}.

(** [GET /add?magnet=http://example.org/movie.torrent] *)
Definition add_refused : AddRequest :=
  {| add_Method := "GET"; add_magnet := Sample.not_a_magnet;
     add_Context := Sample.background |}.

(** [POST /add?magnet=magnet:?xt=urn:btih:c12f] *)
Definition post_movie : AddRequest :=
  {| add_Method := "POST"; add_magnet := "magnet:?xt=urn:btih:c12f";
     add_Context := Sample.background |}.


(** A stream is added and polled, its pipeline runs, the playlist is
    fetched, and a link the client refuses is added. *)
Definition day : list Event :=
  [ev_add add_movie 17;
   ev_hls (segment_request "GET" "17" "playlist.m3u8");
   ev_run 0 Sample.env_ok;
   ev_hls (segment_request "GET" "17" "playlist.m3u8");
   ev_add add_refused 18].


(** Another creation that reads the clock value 18. *)
Definition other_clock_creation : M unit :=
  PrepareStream Sample.svc Sample.background "magnet:?xt=urn:btih:c12f" 18 ;;; retM tt.

End SampleService.

(* ===================================================================== *)
(** ** Tactics *)
(* ===================================================================== *)

(** Settles [only_touches] for the worlds built by the pipeline. *)
Ltac touch_done Hs1 Hh1 :=
  repeat first [apply Forall_cons_2 | apply Forall_nil_2];
  (split; [cbn; congruence|]); intros a Ha; cbn;
  rewrite ?Hh1; cbn; by rewrite ?list_lookup_alter_ne by done.

(** Read the stream's record out of a world built by the pipeline. *)
Ltac view_done Hs Hh :=
  unfold lookup_stream; cbn;
  rewrite ?Hs, ?list_lookup_alter_eq, ?Hh; cbn;
  repeat split; intros; rewrite ?list_lookup_alter_ne by done; done.



(* ===================================================================== *)
(** ** Facts about the string functions *)
(* ===================================================================== *)

Section StringFacts.

Lemma HasPrefix_slash_cons (c : ascii) (s : string) :
  strings_HasPrefix (String c s) "/" = Ascii.eqb "/" c.
Proof. cbn [strings_HasPrefix]. apply andb_true_r. Qed.

Lemma Contains_slash_cons (c : ascii) (s : string) :
  strings_Contains (String c s) "/" = false ->
  Ascii.eqb "/" c = false /\ strings_Contains s "/" = false.
Proof.
  cbn [strings_Contains]. rewrite HasPrefix_slash_cons.
  by intros [H1 H2]%orb_false_elim.
Qed.

(** Cutting at the first slash gives back a slash-free head. *)
Lemma Cut_slash (head rest : string) :
  strings_Contains head "/" = false ->
  strings_Cut (head +:+ "/" +:+ rest) "/" = Some (head, rest).
Proof.
  induction head as [|c head IH]; intros Hno.
  - reflexivity.
  - apply Contains_slash_cons in Hno as [Hc Hno].
    change (String c head +:+ "/" +:+ rest) with (String c (head +:+ "/" +:+ rest)).
    cbn [strings_Cut]. rewrite HasPrefix_slash_cons, Hc.
    by rewrite IH.
Qed.

(** The handler's parse of [/hls/<streamID>/<fileName>]. *)
Lemma split_hls_path (streamID fileName : string) :
  strings_Contains streamID "/" = false ->
  strings_SplitN (strings_TrimPrefix ("/hls/" +:+ streamID +:+ "/" +:+ fileName) "/") "/" 3
  = ["hls"; streamID; fileName].
Proof.
  intros Hno.
  change (strings_TrimPrefix ("/hls/" +:+ streamID +:+ "/" +:+ fileName) "/")
    with ("hls" +:+ "/" +:+ (streamID +:+ "/" +:+ fileName)).
  unfold strings_SplitN. cbn [genSplit].
  rewrite (Cut_slash "hls") by reflexivity.
  by rewrite Cut_slash.
Qed.

Lemma HasPrefix_Contains (sub s : string) :
  strings_HasPrefix s sub = true -> strings_Contains s sub = true.
Proof. intros H. destruct s; cbn [strings_Contains]; by rewrite H. Qed.

Lemma Contains_cons (c : ascii) (s sub : string) :
  strings_Contains s sub = true -> strings_Contains (String c s) sub = true.
Proof. intros H. cbn [strings_Contains]. rewrite H. apply orb_true_r. Qed.

Lemma Contains_app_r (a s sub : string) :
  strings_Contains s sub = true -> strings_Contains (a +:+ s) sub = true.
Proof. induction a; [done|]. intros H. apply Contains_cons; auto. Qed.

Lemma HasPrefix_app (sub s : string) : strings_HasPrefix (sub +:+ s) sub = true.
Proof.
  induction sub as [|c sub IH]; [done|].
  change (String c sub +:+ s) with (String c (sub +:+ s)).
  cbn [strings_HasPrefix]. by rewrite Ascii.eqb_refl, IH.
Qed.

Lemma Contains_infix (a sub b : string) :
  strings_Contains (a +:+ sub +:+ b) sub = true.
Proof. apply Contains_app_r, HasPrefix_Contains, HasPrefix_app. Qed.

End StringFacts.

(* ===================================================================== *)
(** ** The segment file server *)
(* ===================================================================== *)

Section SegmentServer.

Implicit Types (w : World) (method streamID fileName : string).

(** What the handler does on a request of the expected shape. *)
Lemma ServeHTTP_segment w method streamID fileName :
  strings_Contains streamID "/" = false ->
  ServeHTTP (segment_request method streamID fileName) w =
  match streams w !! streamID with
  | None =>
      (Ret http_NotFound, log_line ("Stream not found or not ready: " +:+ streamID) w, [])
  | Some stream =>
      if strings_Contains fileName ".." then (Ret (http_Error "Invalid path" 400), w, [])
      else match heap w !! stream with
           | Some r =>
               (Ret (if String.eqb method "OPTIONS" then WriteHeader cors_header 200
                     else http_ServeFile cors_header (filepath_Join [HlsDir r; fileName])),
                w, [])
           | None => (Panic "invalid memory address or nil pointer dereference", w, [])
           end
  end.
Proof.
  intros Hno. unfold ServeHTTP, segment_request. cbn [URL_Path Method].
  rewrite split_hls_path by done.
  destruct (streams w !! streamID) as [stream|]; [|reflexivity].
  destruct (strings_Contains fileName ".."); [reflexivity|].
  unfold bindM, load. destruct (heap w !! stream); [|reflexivity].
  by destruct (String.eqb method "OPTIONS").
Qed.

(** With a directory to start from, [filepath.Join] cleans
    [dir/fileName]. *)
Lemma Join_dir (dir fileName : string) :
  dir <> "" -> filepath_Join [dir; fileName] = filepath_Clean (dir +:+ "/" +:+ fileName).
Proof.
  intros Hdir. cbn [filepath_Join].
  destruct (String.eqb_spec dir ""); [done|]. reflexivity.
Qed.

(** With no directory to start from, [filepath.Join] cleans the file
    name alone. *)
Lemma Join_unset (fileName : string) :
  fileName <> "" -> filepath_Join [""; fileName] = filepath_Clean fileName.
Proof.
  intros Hne. cbn [filepath_Join String.eqb].
  destruct (String.eqb_spec fileName ""); [done|]. reflexivity.
Qed.

End SegmentServer.

(** C1.  A request [/hls/<streamID>/<fileName>] whose file name contains
    [..] (in particular one with a parent-directory segment) is answered
    with a client-error status and no file path is resolved or read: 404
    when the stream id is not registered, 400 "Invalid path" when it is.
    The registry is left as it was. *)
Theorem traversal_rejected (w : World) (method streamID fileName : string) :
  strings_Contains streamID "/" = false ->
  strings_Contains fileName ".." = true ->
  exists rep w',
    ServeHTTP (segment_request method streamID fileName) w = (Ret rep, w', []) /\
    client_error (reply_status w' rep) /\
    reply_file rep = None /\
    rep = match streams w !! streamID with
          | Some _ => http_Error "Invalid path" 400
          | None => http_NotFound
          end /\
    streams w' = streams w /\ heap w' = heap w /\ files w' = files w.
Proof.
  intros Hid Hdots. rewrite ServeHTTP_segment by done. rewrite Hdots.
  destruct (streams w !! streamID) as [stream|]; eexists _, _;
    (split; [reflexivity|]); cbn; unfold client_error; repeat split; lia.
Qed.

Lemma traversal_rejected_witness :
  exists rep w',
    ServeHTTP (segment_request "GET" "17" "../../etc/passwd") Sample.w_prepared
      = (Ret rep, w', []) /\
    client_error (reply_status w' rep) /\
    reply_file rep = None /\
    rep = match streams Sample.w_prepared !! "17" with
          | Some _ => http_Error "Invalid path" 400
          | None => http_NotFound
          end /\
    streams w' = streams Sample.w_prepared /\ heap w' = heap Sample.w_prepared /\
    files w' = files Sample.w_prepared.
Proof.
  apply (traversal_rejected Sample.w_prepared "GET" "17" "../../etc/passwd"); reflexivity.
Defined.

(** A path element of [fileName] occurs in [fileName]; so a name with a
    [..] element is one of those the handler refuses. *)
Lemma split_byte_head_prefix (c : ascii) (s piece : string) (rest : list string) :
  split_byte c s = piece :: rest -> strings_HasPrefix s piece = true.
Proof.
  revert piece rest. induction s as [|d s IH]; intros piece rest; cbn [split_byte].
  - by intros [= <- <-].
  - destruct (Ascii.eqb d c).
    + by intros [= <- <-].
    + destruct (split_byte c s) as [|p r] eqn:Hs.
      * by intros [= <- <-]; cbn; rewrite Ascii.eqb_refl.
      * intros [= <- <-]. cbn [strings_HasPrefix].
        rewrite Ascii.eqb_refl. cbn. eauto.
Qed.

Lemma split_byte_Contains (c : ascii) (s elem : string) :
  elem ∈ split_byte c s -> strings_Contains s elem = true.
Proof.
  induction s as [|d s IH]; cbn [split_byte].
  - by intros ->%list_elem_of_singleton.
  - destruct (Ascii.eqb d c).
    + intros [->|Hin]%elem_of_cons; [done|]. by apply Contains_cons, IH.
    + destruct (split_byte c s) as [|p r] eqn:Hs.
      * intros ->%list_elem_of_singleton. apply HasPrefix_Contains.
        cbn. by rewrite Ascii.eqb_refl.
      * intros [->|Hin]%elem_of_cons.
        -- apply HasPrefix_Contains. cbn [strings_HasPrefix].
           rewrite Ascii.eqb_refl. cbn. eapply split_byte_head_prefix, Hs.
        -- apply Contains_cons, IH. by right.
Qed.

Lemma dotdot_segment_Contains (fileName : string) :
  ".." ∈ split_byte "/" fileName -> strings_Contains fileName ".." = true.
Proof. apply split_byte_Contains. Qed.

(** The contract in the words of the specification fails for a stream
    that is registered but has no working directory yet: it is not
    answered with not-found; the handler joins the empty directory with
    the file name and hands that path to [http.ServeFile]. *)
Lemma serves_as_specified_fails :
  ~ serves_as_specified Sample.w_prepared "17" "go.mod".
Proof. unfold serves_as_specified. vm_compute. intros H. discriminate H. Qed.

(** What this puts on the wire: the bytes of a file of the process's own
    directory. *)
Example unset_directory_reply :
  let res := ServeHTTP (segment_request "GET" "17" "go.mod") Sample.w_prepared in
  (HlsDir <$> lookup_stream Sample.w_prepared "17") = Some "" /\
  outcome_of res = Ret (http_ServeFile cors_header "go.mod") /\
  reply_status (world_of res) (http_ServeFile cors_header "go.mod") = 200 /\
  reply_body (world_of res) (http_ServeFile cors_header "go.mod") = "module torrent-play".
Proof. vm_compute. done. Qed.

(** C2.  What the segment server does with a GET of
    [/hls/<streamID>/<fileName>].  An unregistered stream id is answered
    404 and no file is read.  For a registered stream a file name with
    [..] gets 400; any other name is never answered with not-found: the
    handler serves [filepath.Join(HlsDir, fileName)] whatever the working
    directory is.  With a working directory set, that is the cleaned path
    [<working directory>/<fileName>].  With the working directory still
    unset it is the cleaned file name itself, a path relative to the
    directory of the process: the handler tests the id only, never the
    directory. *)
Theorem segment_resolution (w : World) (streamID fileName : string) :
  strings_Contains streamID "/" = false ->
  let res := ServeHTTP (segment_request "GET" streamID fileName) w in
  (streams w !! streamID = None ->
     outcome_of res = Ret http_NotFound /\ reply_file http_NotFound = None /\
     reply_status (world_of res) http_NotFound = 404) /\
  (forall r, lookup_stream w streamID = Some r ->
     (strings_Contains fileName ".." = true ->
        res = (Ret (http_Error "Invalid path" 400), w, [])) /\
     (strings_Contains fileName ".." = false ->
        res = (Ret (http_ServeFile cors_header (filepath_Join [HlsDir r; fileName])), w, []) /\
        outcome_of res <> Ret http_NotFound /\
        (HlsDir r <> "" ->
           filepath_Join [HlsDir r; fileName]
           = filepath_Clean (HlsDir r +:+ "/" +:+ fileName)) /\
        (HlsDir r = "" -> fileName <> "" ->
           filepath_Join [HlsDir r; fileName] = filepath_Clean fileName))).
Proof.
  intros Hid res. subst res. rewrite ServeHTTP_segment by done. split.
  - intros ->. done.
  - intros r. unfold lookup_stream.
    destruct (streams w !! streamID) as [stream|]; [|done].
    intros Hr. rewrite Hr. split; intros ->; [done|].
    split; [done|]. split; [done|]. split.
    + by apply Join_dir.
    + intros ->. by apply Join_unset.
Qed.

Lemma segment_resolution_witness :
  let res := ServeHTTP (segment_request "GET" "17" "go.mod") Sample.w_prepared in
  (streams Sample.w_prepared !! "17" = None ->
     outcome_of res = Ret http_NotFound /\ reply_file http_NotFound = None /\
     reply_status (world_of res) http_NotFound = 404) /\
  (forall r, lookup_stream Sample.w_prepared "17" = Some r ->
     (strings_Contains "go.mod" ".." = true ->
        res = (Ret (http_Error "Invalid path" 400), Sample.w_prepared, [])) /\
     (strings_Contains "go.mod" ".." = false ->
        res = (Ret (http_ServeFile cors_header (filepath_Join [HlsDir r; "go.mod"])),
               Sample.w_prepared, []) /\
        outcome_of res <> Ret http_NotFound /\
        (HlsDir r <> "" ->
           filepath_Join [HlsDir r; "go.mod"] = filepath_Clean (HlsDir r +:+ "/" +:+ "go.mod")) /\
        (HlsDir r = "" -> "go.mod" <> "" ->
           filepath_Join [HlsDir r; "go.mod"] = filepath_Clean "go.mod"))).
Proof.
  apply (segment_resolution Sample.w_prepared "17" "go.mod"). reflexivity.
Defined.

Example segment_resolution_ready :
  ServeHTTP (segment_request "GET" "17" "segment000.ts") Sample.w_ready
  = (Ret (http_ServeFile cors_header
            "/tmp/torrent-hls-service1/hls-17-001/segment000.ts"),
     Sample.w_ready, []).
Proof. vm_compute. done. Qed.

(* ===================================================================== *)
(** ** The registry and the pipeline *)
(* ===================================================================== *)

Section Pipeline.

Implicit Types (w : World) (streamID : string) (info : addr) (r : StreamInfo).

Lemma updateStreamState_found w streamID info state err :
  streams w !! streamID = Some info ->
  updateStreamState streamID state err w =
  let w' := log_line (match err with
                      | Some e => "[" +:+ streamID +:+ "] Error state: " +:+ e
                      | None => "[" +:+ streamID +:+ "] State changed to: "
                                +:+ StreamState_string state
                      end)
              (with_heap (alter (transition state err) info) w) in
  (Ret tt, w', [w']).
Proof.
  intros H. unfold updateStreamState, locked. rewrite H. by destruct err.
Qed.

Lemma locked_assign_found w streamID info f :
  streams w !! streamID = Some info ->
  locked_assign streamID f w =
  (Ret tt, with_heap (alter f info) w, [with_heap (alter f info) w]).
Proof. intros H. unfold locked_assign, locked. by rewrite H. Qed.

(** The scanner goroutine only writes log lines. *)
Lemma scan_stderr_run streamID lines w :
  exists w', scan_stderr streamID lines w = (Ret tt, w', []) /\
             streams w' = streams w /\ heap w' = heap w /\ dirs w' = dirs w /\
             files w' = files w /\ procs w' = procs w.
Proof.
  revert w. induction lines as [|line lines IH]; intros w.
  - by exists w.
  - cbn [scan_stderr]. unfold bindM at 1. unfold log_Printf at 1, effect.
    unfold bindM at 1.
    destruct (strings_Contains (strings_ToLower line) "error"
              || strings_Contains (strings_ToLower line) "failed").
    + unfold log_Printf, effect.
      destruct (IH (log_line ("Error detected in ffmpeg output for stream " +:+ streamID)
                      (log_line ("ffmpeg [" +:+ streamID +:+ "]: " +:+ line) w)))
        as (w' & -> & ? & ? & ? & ? & ?).
      by exists w'.
    + unfold retM.
      destruct (IH (log_line ("ffmpeg [" +:+ streamID +:+ "]: " +:+ line) w))
        as (w' & -> & ? & ? & ? & ? & ?).
      by exists w'.
Qed.

Lemma transcodeToHLS_run env ctx streamID file hlsDir w :
  exists w', transcodeToHLS env ctx streamID file hlsDir w = (transcode_result env ctx, w', []) /\
             streams w' = streams w /\ heap w' = heap w /\ dirs w' = dirs w /\
             files w' = files w.
Proof.
  unfold transcodeToHLS, transcode_result.
  destruct (cmd_StderrPipe env); [by exists w|].
  destruct (cmd_Start env); [by exists w|].
  unfold bindM at 1. unfold effect at 1. unfold bindM at 1. unfold log_Printf at 1, effect at 1.
  unfold bindM at 1.
  match goal with |- context [scan_stderr ?i ?l ?W] =>
    destruct (scan_stderr_run i l W) as (w1 & -> & Hs & Hh & Hd & Hf & Hp) end.
  destruct (cmd_Wait env) as [[err|]|].
  - unfold bindM, effect. destruct (ctx_Err ctx); eexists; (split; [reflexivity|]); done.
  - unfold bindM, effect, log_Printf, effect, retM. eexists; (split; [reflexivity|]); done.
  - unfold blockM. eexists; (split; [reflexivity|]); done.
Qed.

Lemma manageStream_view s env ctx streamID t w info r :
  points_to w streamID info r ->
  let res := manageStream s env ctx streamID t w in
  let recs := manageStream_records s env ctx streamID t r in
  (fun w' => lookup_stream w' streamID) <$> trace_of res = Some <$> recs /\
  lookup_stream (world_of res) streamID = Some (default r (last recs)) /\
  streams (world_of res) = streams w /\
  (forall a, a <> info -> heap (world_of res) !! a = heap w !! a) /\
  (forall msg, outcome_of res <> Panic msg).
Proof.
  intros [Hs Hh]. cbv zeta.
  destruct (manageStream s env ctx streamID t w) as [[o wf] tr] eqn:Hrun.
  revert Hrun. unfold manageStream, manageStream_records.
  destruct (torrent_GotInfo t); cbn [negb receive];
    [|intros [= <- <- <-]; by view_done Hs Hh].
  unfold bindM at 1. unfold retM at 1.
  destruct (torrent_Info t); cbn [negb].
  2:{ rewrite (updateStreamState_found _ _ info) by done.
      cbn zeta. intros [= <- <- <-]; by view_done Hs Hh. }
  destruct (select_largest (torrent_Files t) None) as [largestFile|].
  2:{ rewrite (updateStreamState_found _ _ info) by done.
      cbn zeta. intros [= <- <- <-]; by view_done Hs Hh. }
  unfold bindM at 1. unfold log_Printf at 1, effect at 1.
  unfold bindM at 1. rewrite (locked_assign_found _ _ info) by done.
  unfold bindM at 1. rewrite (updateStreamState_found _ _ info) by done.
  cbn zeta.
  destruct (os_MkdirTemp env (baseTempDir s) ("hls-" +:+ streamID +:+ "-")) as [hlsDir|err].
  2:{ rewrite (updateStreamState_found _ _ info) by done.
      cbn zeta. intros [= <- <- <-]; by view_done Hs Hh. }
  unfold bindM at 1. unfold effect at 1.
  unfold bindM at 1. unfold log_Printf at 1, effect at 1.
  unfold bindM at 1. rewrite (locked_assign_found _ _ info) by done.
  unfold bindM at 1. rewrite (updateStreamState_found _ _ info) by done.
  cbn zeta. unfold bindM at 1.
  match goal with |- context [transcodeToHLS ?e ?c ?i ?f ?d ?W] =>
    destruct (transcodeToHLS_run e c i f d W) as (w1 & -> & Hs1 & Hh1 & Hd1 & Hf1) end.
  cbn in Hs1, Hh1.
  destruct (transcode_result env ctx) as [[err|]| |] eqn:Htr.
  - unfold bindM. rewrite (updateStreamState_found _ _ info) by congruence.
    cbn. intros [= <- <- <-].
    unfold lookup_stream; cbn; rewrite Hs1, Hh1. by view_done Hs Hh.
  - rewrite (updateStreamState_found _ _ info) by congruence.
    cbn. intros [= <- <- <-].
    unfold lookup_stream; cbn; rewrite Hs1, Hh1. by view_done Hs Hh.
  - exfalso. revert Htr. unfold transcode_result.
    by repeat case_match.
  - intros [= <- <- <-].
    unfold lookup_stream; cbn; rewrite Hs1, Hh1. by view_done Hs Hh.
Qed.

(** The record [PrepareStream] creates is the last object of the heap. *)
Lemma new_record_lookup (h : list StreamInfo) r f :
  alter f (List.length h) (h ++ [r]) !! List.length h = Some (f r).
Proof. by rewrite list_lookup_alter_eq, list_lookup_middle. Qed.

Lemma PrepareStream_run s ctx magnetURI now w :
  let streamID := Sprintf_d now in
  let info := List.length (heap w) in
  let w1 := with_streams (insert streamID info)
              (with_heap (fun h => h ++ [new_StreamInfo streamID magnetURI]) w) in
  let w1' := log_line ("[" +:+ streamID +:+ "] Adding magnet: " +:+ magnetURI) w1 in
  PrepareStream s ctx magnetURI now w =
  match AddMagnet (client s) magnetURI with
  | Err err =>
      let e := Errorf_w "error adding magnet: " err in
      let w2 := log_line ("[" +:+ streamID +:+ "] Error state: " +:+ e)
                  (with_heap (alter (transition StateError (Some e)) info) w1') in
      (Ret (info, Some e, None), w2, [w1; w2])
  | Ok t =>
      let w2 := log_line ("[" +:+ streamID +:+ "] State changed to: "
                          +:+ StreamState_string StateGettingInfo)
                  (with_heap (alter (transition StateGettingInfo None) info)
                     (with_heap (alter (set_Torrent (Some t)) info) w1')) in
      (Ret (info, None, Some (go_manageStream ctx streamID t)), w2, [w1; w2])
  end.
Proof.
  cbv zeta. unfold PrepareStream.
  unfold bindM at 1. unfold register_stream, locked.
  unfold bindM at 1. unfold log_Printf at 1, effect at 1.
  destruct (AddMagnet (client s) magnetURI) as [t|err].
  - unfold bindM at 1. unfold store, effect at 1.
    unfold bindM at 1.
    rewrite (updateStreamState_found _ _ (List.length (heap w)))
      by (cbn; apply lookup_insert_eq).
    reflexivity.
  - unfold bindM at 1.
    rewrite (updateStreamState_found _ _ (List.length (heap w)))
      by (cbn; apply lookup_insert_eq).
    cbn zeta. unfold bindM, load. cbn [heap log_line with_logged with_heap with_streams].
    by rewrite new_record_lookup.
Qed.

End Pipeline.

(* ===================================================================== *)
(** ** The registry operations *)
(* ===================================================================== *)

(** C9: [updateStreamState] does not report a missing id.  The function
    has no result, and the call for an unknown id hands back exactly what
    the call for a known id hands back. *)
Lemma not_found_not_reported : ~ transition_reports_not_found.
Proof.
  intros [told Htold].
  pose proof (Htold "17" StateReady None Sample.w0) as Hunknown.
  pose proof (Htold "17" StateReady None Sample.w_prepared) as Hknown.
  vm_compute in Hunknown, Hknown.
  destruct Hunknown as [_ Hunknown]. destruct Hknown as [Hknown _].
  specialize (Hknown (Hunknown eq_refl)). discriminate Hknown.
Qed.

(** C9, amended.  A transition for an id that is not in the registry
    returns normally and changes nothing: the registry, every record, the
    directories, the processes and the log are as before.  Nothing tells
    the caller that the id was missing. *)
Theorem updateStreamState_unknown (w : World) (streamID : string) (state : StreamState)
    (err : option error) :
  streams w !! streamID = None ->
  updateStreamState streamID state err w = (Ret tt, w, [w]).
Proof. intros H. unfold updateStreamState, locked. by rewrite H. Qed.

Lemma updateStreamState_unknown_witness :
  streams Sample.w_prepared !! "18" = None /\
  updateStreamState "18" StateError (Some "transcoding failed") Sample.w_prepared
  = (Ret tt, Sample.w_prepared, [Sample.w_prepared]).
Proof.
  split; [reflexivity|].
  apply (updateStreamState_unknown Sample.w_prepared "18" StateError
           (Some "transcoding failed")).
  reflexivity.
Defined.

(* ===================================================================== *)
(** ** A creation among other goroutines *)
(* ===================================================================== *)

Section Among.

Implicit Types (w : World) (others : M unit) (s : HlsService) (r : StreamInfo).

(** With no step in between, the call is [PrepareStream]. *)
Lemma PrepareStream_among_alone s ctx magnetURI now w :
  PrepareStream_among (retM tt) s ctx magnetURI now w = PrepareStream s ctx magnetURI now w.
Proof.
  unfold PrepareStream_among, PrepareStream.
  unfold bindM at 1. unfold register_stream, locked.
  unfold bindM at 1. unfold retM at 1.
  symmetry. unfold bindM at 1.
  match goal with |- context [bindM ?m ?k ?W] => destruct (bindM m k W) as [[o w2] t2] end.
  reflexivity.
Qed.

(** The call when the steps in between leave the id to it. *)
Lemma PrepareStream_among_run others s ctx magnetURI now w r :
  let streamID := Sprintf_d now in
  let info := List.length (heap w) in
  undisturbed others streamID magnetURI w r ->
  let w1 := world_of (register_stream streamID magnetURI w) in
  let w2 := log_line ("[" +:+ streamID +:+ "] Adding magnet: " +:+ magnetURI)
              (world_of (others w1)) in
  PrepareStream_among others s ctx magnetURI now w =
  match AddMagnet (client s) magnetURI with
  | Err err =>
      let e := Errorf_w "error adding magnet: " err in
      let w3 := log_line ("[" +:+ streamID +:+ "] Error state: " +:+ e)
                  (with_heap (alter (transition StateError (Some e)) info) w2) in
      (Ret (info, Some e, None), w3, [w1] ++ trace_of (others w1) ++ [w3])
  | Ok t =>
      let w3 := log_line ("[" +:+ streamID +:+ "] State changed to: "
                          +:+ StreamState_string StateGettingInfo)
                  (with_heap (alter (transition StateGettingInfo None) info)
                     (with_heap (alter (set_Torrent (Some t)) info) w2)) in
      (Ret (info, None, Some (go_manageStream ctx streamID t)), w3,
       [w1] ++ trace_of (others w1) ++ [w3])
  end.
Proof.
  cbv zeta. intros [Hret [Hs Hh]]. unfold PrepareStream_among.
  unfold bindM at 1. unfold register_stream at 1, locked.
  unfold bindM at 1.
  revert Hret Hs Hh. unfold register_stream, locked, world_of. cbn [fst snd].
  match goal with |- context [others ?W] => destruct (others W) as [[o w2] tg] end.
  unfold outcome_of, trace_of. cbn [fst snd]. intros -> Hs Hh.
  unfold bindM at 1. unfold log_Printf at 1, effect at 1.
  destruct (AddMagnet (client s) magnetURI) as [t|err].
  - unfold bindM at 1. unfold store, effect at 1.
    unfold bindM at 1.
    rewrite (updateStreamState_found _ _ (List.length (heap w))) by done.
    reflexivity.
  - unfold bindM at 1.
    rewrite (updateStreamState_found _ _ (List.length (heap w))) by done.
    cbn zeta. unfold bindM, load. cbn [heap log_line with_logged with_heap with_streams].
    rewrite list_lookup_alter_eq, Hh. reflexivity.
Qed.

End Among.




(** The call with nothing scheduled in between. *)
Example PrepareStream_alone_fails :
  let res := PrepareStream Sample.svc Sample.background Sample.not_a_magnet 17 Sample.w0 in
  outcome_of res = Ret (0%nat, Some "error adding magnet: unrecognized scheme", None) /\
  observed_state "17" (world_of res) = Some StateError.
Proof. vm_compute. done. Qed.

(** C7: the id is not always fresh.  Two creations that read the same
    clock value get the same id, and the second record takes the place of
    the first in the registry. *)
Lemma PrepareStream_reuses_id :
  exists info r,
    outcome_of Sample.second_call
    = Ret (info, Some "error adding magnet: unrecognized scheme", None) /\
    heap (world_of Sample.second_call) !! info = Some r /\
    heap (world_of Sample.first_call) !! info = None /\
    ~ fresh_id (world_of Sample.first_call) (ID r).
Proof.
  exists 1%nat. eexists. repeat split; [vm_compute; reflexivity..|].
  intros Hfresh. eapply Hfresh.
  - apply list_elem_of_lookup. exists 0%nat. vm_compute. reflexivity.
  - vm_compute. reflexivity.
Qed.

(** C7, amended.  The id of a new stream is the decimal form of the clock
    reading of the call: it differs from the id of every record created
    at another reading.  The record is a new object, and a lookup right
    after the insertion returns it, in state [StateInitializing]. *)
Theorem PrepareStream_registers (s : HlsService) (ctx : Context) (magnetURI : string)
    (now : Z) (w : World) :
  let streamID := Sprintf_d now in
  let res := PrepareStream s ctx magnetURI now w in
  exists info w1 rest,
    trace_of res = w1 :: rest /\
    heap w !! info = None /\
    GetStreamInfo streamID w1 = (Some info, true) /\
    heap w1 !! info = Some (new_StreamInfo streamID magnetURI) /\
    observed_state streamID w1 = Some StateInitializing /\
    (forall r t, r ∈ heap w -> created_at r t -> t <> now -> ID r <> streamID).
Proof.
  cbv zeta. rewrite PrepareStream_run. cbv zeta.
  exists (List.length (heap w)).
  assert (Hnew : heap w !! List.length (heap w) = None) by by apply lookup_ge_None.
  assert (Hinj : forall r t, r ∈ heap w -> created_at r t -> t <> now -> ID r <> Sprintf_d now).
  { intros r t _ -> Hne Heq. apply Hne. by apply (inj pretty) in Heq. }
  destruct (AddMagnet (client s) magnetURI); eexists _, _;
    (split; [reflexivity|]); (split; [done|]);
    unfold GetStreamInfo, observed_state, lookup_stream; cbn;
    rewrite lookup_insert_eq, list_lookup_middle by done; done.
Qed.

Lemma PrepareStream_registers_witness :
  exists info w1 rest,
    trace_of (PrepareStream Sample.svc Sample.background "magnet:?xt=urn:btih:9a0b" 18
                Sample.w_prepared) = w1 :: rest /\
    heap Sample.w_prepared !! info = None /\
    GetStreamInfo (Sprintf_d 18) w1 = (Some info, true) /\
    heap w1 !! info = Some (new_StreamInfo (Sprintf_d 18) "magnet:?xt=urn:btih:9a0b") /\
    observed_state (Sprintf_d 18) w1 = Some StateInitializing /\
    (forall r t, r ∈ heap Sample.w_prepared -> created_at r t -> t <> 18 ->
                 ID r <> Sprintf_d 18).
Proof.
  apply (PrepareStream_registers Sample.svc Sample.background "magnet:?xt=urn:btih:9a0b" 18
           Sample.w_prepared).
Defined.

(* ===================================================================== *)
(** ** The state machine *)
(* ===================================================================== *)

Section StateMachine.

Implicit Types (w : World) (streamID : string) (r : StreamInfo).






End StateMachine.




Example stream_history_sample :
  observations "17" Sample.first_call
  ++ observations "17" (pipeline_run Sample.svc Sample.env_ok Sample.first_call
                          (world_of Sample.first_call))
  = [StateInitializing; StateGettingInfo; StateGettingInfo; StateDownloading;
     StateDownloading; StateTranscoding; StateReady].
Proof. vm_compute. reflexivity. Qed.

(* ===================================================================== *)
(** ** The last error *)
(* ===================================================================== *)

Section LastError.

Implicit Types (w : World) (streamID : string) (r : StreamInfo).



End LastError.




(* ===================================================================== *)
(** ** Payload selection *)
(* ===================================================================== *)

Section Selection.

Implicit Types (files pre post : list torrent_File) (f l : torrent_File).



Lemma select_largest_nil : select_largest [] None = None.
Proof. reflexivity. Qed.




End Selection.




(** The two payloads of lengths 100 and 5000: the second is selected. *)
Example largest_of_sample :
  File <$> lookup_stream Sample.w_ready "17"
  = Some (Some {| file_Path := "movie.mkv"; file_Length := 5000 |}).
Proof. vm_compute. reflexivity. Qed.

(* ===================================================================== *)
(** ** The transcoder *)
(* ===================================================================== *)

Section Transcoder.

Implicit Types (env : Env) (ctx : Context) (w : World).

Lemma transcodeToHLS_outcome env ctx streamID file hlsDir w :
  outcome_of (transcodeToHLS env ctx streamID file hlsDir w) = transcode_result env ctx.
Proof.
  destruct (transcodeToHLS_run env ctx streamID file hlsDir w) as (w' & -> & _). done.
Qed.

(** The result of the transcoder run names the failing step. *)
Lemma transcode_result_error env ctx :
  (exists err, transcode_result env ctx = Ret (Some err)) <->
  is_Some (cmd_StderrPipe env) \/ start_fails env \/ wait_fails env.
Proof.
  unfold transcode_result, start_fails, wait_fails. split.
  - intros [err Herr]. repeat case_match; simplify_eq; naive_solver.
  - intros [[e He]|[[Hp [e He]]|(Hp & Hs & e & He)]].
    + rewrite He. eauto.
    + rewrite Hp, He. eauto.
    + rewrite Hp, Hs, He. destruct (ctx_Err ctx); eauto.
Qed.

End Transcoder.

(** C8: an error is returned in a third case.  When the pipe for the
    diagnostic output cannot be created, [transcodeToHLS] returns an
    error although the process is neither started nor waited for. *)
Lemma stderr_pipe_error_returned :
  ~ start_fails Sample.env_no_pipe /\ ~ wait_fails Sample.env_no_pipe /\
  returns_error (transcodeToHLS Sample.env_no_pipe Sample.background "17"
                   {| file_Path := "movie.mkv"; file_Length := 5000 |}
                   "/tmp/torrent-hls-service1/hls-17-001" Sample.w_prepared).
Proof.
  repeat split.
  - intros [H _]. discriminate H.
  - intros [H _]. discriminate H.
  - eexists. vm_compute. reflexivity.
Qed.

(** C8, amended.  What [transcodeToHLS] returns does not depend on the
    diagnostic output of the transcoder, and neither does the record the
    pipeline leaves; lines with failure keywords only add log lines.  It
    returns an error exactly when creating the pipe for the diagnostic
    output fails, or starting the process fails, or waiting for it
    returns an error. *)
Theorem transcode_error_iff (env : Env) (ctx : Context) (streamID : string)
    (file : torrent_File) (hlsDir : string) (w : World) (lines : list string) :
  let res := transcodeToHLS env ctx streamID file hlsDir w in
  outcome_of (transcodeToHLS (with_stderr lines env) ctx streamID file hlsDir w)
  = outcome_of res /\
  (returns_error res <->
   is_Some (cmd_StderrPipe env) \/ start_fails env \/ wait_fails env) /\
  (forall s t info r,
      points_to w streamID info r ->
      lookup_stream (world_of (manageStream s (with_stderr lines env) ctx streamID t w)) streamID
      = lookup_stream (world_of (manageStream s env ctx streamID t w)) streamID).
Proof.
  cbv zeta. split; [by rewrite !transcodeToHLS_outcome|]. split.
  - unfold returns_error. rewrite transcodeToHLS_outcome. apply transcode_result_error.
  - intros s t info r Hpts.
    destruct (manageStream_view s env ctx streamID t w info r Hpts) as (_ & -> & _).
    destruct (manageStream_view s (with_stderr lines env) ctx streamID t w info r Hpts)
      as (_ & -> & _).
    reflexivity.
Qed.

Lemma transcode_error_iff_witness :
  let env := Sample.env_ok in
  let lines := ["Conversion failed!"; "fatal error"] in
  let file := {| file_Path := "movie.mkv"; file_Length := 5000 |} in
  let hlsDir := "/tmp/torrent-hls-service1/hls-17-001" in
  let res := transcodeToHLS env Sample.background "17" file hlsDir Sample.w_prepared in
  outcome_of (transcodeToHLS (with_stderr lines env) Sample.background "17" file hlsDir
                Sample.w_prepared)
  = outcome_of res /\
  (returns_error res <->
   is_Some (cmd_StderrPipe env) \/ start_fails env \/ wait_fails env) /\
  (forall s t info r,
      points_to Sample.w_prepared "17" info r ->
      lookup_stream (world_of (manageStream s (with_stderr lines env) Sample.background
                                 "17" t Sample.w_prepared)) "17"
      = lookup_stream (world_of (manageStream s env Sample.background "17" t
                                   Sample.w_prepared)) "17").
Proof.
  exact (transcode_error_iff Sample.env_ok Sample.background "17"
           {| file_Path := "movie.mkv"; file_Length := 5000 |}
           "/tmp/torrent-hls-service1/hls-17-001" Sample.w_prepared
           ["Conversion failed!"; "fatal error"]).
Defined.

(** Diagnostic lines full of failure keywords, exit status 0: the stream
    is ready. *)
Example keywords_are_informational :
  observed_state "17"
    (world_of (manageStream Sample.svc
                 (with_stderr ["Conversion failed!"; "fatal error"] Sample.env_ok)
                 Sample.background "17" Sample.movie Sample.w_prepared))
  = Some StateReady.
Proof. vm_compute. reflexivity. Qed.

(* ===================================================================== *)
(** ** Cancellation *)
(* ===================================================================== *)

Section Cancellation.

Implicit Types (env : Env) (ctx : Context) (w : World).

Lemma set_last_proc_snoc (ps : list Process) (p : Process) (st : ProcState) :
  set_last_proc st (ps ++ [p]) = ps ++ [{| proc_argv := proc_argv p; proc_state := st |}].
Proof.
  unfold set_last_proc. rewrite length_app, Nat.add_1_r. cbn [pred].
  by rewrite alter_app_r_alt, Nat.sub_diag by done.
Qed.

(** A transcoder that could be started: the process it leaves. *)
Lemma transcodeToHLS_started env ctx streamID file hlsDir w :
  cmd_StderrPipe env = None -> cmd_Start env = None ->
  exists w', transcodeToHLS env ctx streamID file hlsDir w = (transcode_result env ctx, w', []) /\
             streams w' = streams w /\ heap w' = heap w /\ dirs w' = dirs w /\
             procs w' = procs w ++ [{| proc_argv := ffmpeg_argv hlsDir;
                                       proc_state := state_after_wait env |}].
Proof.
  intros Hp Hs. unfold transcodeToHLS, transcode_result, state_after_wait. rewrite Hp, Hs.
  unfold bindM at 1. unfold effect at 1. unfold bindM at 1. unfold log_Printf at 1, effect at 1.
  unfold bindM at 1.
  match goal with |- context [scan_stderr ?i ?l ?W] =>
    destruct (scan_stderr_run i l W) as (w1 & -> & Hs1 & Hh1 & Hd1 & Hf1 & Hp1) end.
  cbn in Hs1, Hh1, Hd1, Hp1.
  destruct (cmd_Wait env) as [[err|]|].
  - unfold bindM, effect. destruct (ctx_Err ctx); eexists; (split; [reflexivity|]);
      cbn; by rewrite Hp1, set_last_proc_snoc.
  - unfold bindM, effect, log_Printf, effect, retM. eexists; (split; [reflexivity|]);
      cbn; by rewrite Hp1, set_last_proc_snoc.
  - unfold blockM. eexists; (split; [reflexivity|]); done.
Qed.

End Cancellation.

(** C5.  What the pipeline does when its context is cancelled while the
    transcoder runs.  Nothing stops the process: the command is not bound
    to the context and the context is read only after [cmd.Wait()] has
    returned an error.  If the transcoder does not exit, the pipeline
    waits for ever, the record stays in [StateTranscoding], the process
    keeps running and the directory stays.  If it exits with status 0 the
    stream becomes ready.  Only if it exits with an error is the record
    moved to [StateError], with the cancellation as the detail, and the
    directory removed. *)
Theorem cancellation_not_acted_on (s : HlsService) (env : Env) (ctx : Context)
    (streamID : string) (t : torrent_Torrent) (w : World) (info : addr) (r : StreamInfo)
    (f : torrent_File) (hlsDir : string) (cause : error) :
  points_to w streamID info r ->
  torrent_GotInfo t = true -> torrent_Info t = true ->
  select_largest (torrent_Files t) None = Some f ->
  os_MkdirTemp env (baseTempDir s) ("hls-" +:+ streamID +:+ "-") = Ok hlsDir ->
  cmd_StderrPipe env = None -> cmd_Start env = None ->
  ctx_Err ctx = Some cause ->
  let res := manageStream s env ctx streamID t w in
  let ffmpeg st := {| proc_argv := ffmpeg_argv hlsDir; proc_state := st |} in
  match cmd_Wait env with
  | WaitNever =>
      outcome_of res = Block /\
      observed_state streamID (world_of res) = Some StateTranscoding /\
      procs (world_of res) = procs w ++ [ffmpeg Running] /\
      hlsDir ∈ dirs (world_of res)
  | WaitReturns None =>
      outcome_of res = Ret tt /\
      observed_state streamID (world_of res) = Some StateReady /\
      procs (world_of res) = procs w ++ [ffmpeg (Exited None)] /\
      hlsDir ∈ dirs (world_of res)
  | WaitReturns (Some err) =>
      outcome_of res = Ret tt /\
      lookup_stream (world_of res) streamID
      = Some (transition StateError
                (Some ("transcoding failed: ffmpeg stopped due to context cancellation: "
                       +:+ cause))
                (transition StateTranscoding None
                   (set_HlsDir hlsDir
                      (transition StateDownloading None (set_File (Some f) r))))) /\
      procs (world_of res) = procs w ++ [ffmpeg (Exited (Some err))] /\
      hlsDir ∉ dirs (world_of res)
  end.
Proof.
  intros [Hs Hh] HG HI Hsel Hmk Hpipe Hstart Hctx. cbv zeta.
  destruct (manageStream s env ctx streamID t w) as [[o wf] tr] eqn:Hrun.
  unfold outcome_of, world_of. cbn [fst snd].
  revert Hrun. unfold manageStream. rewrite HG, HI, Hsel, Hmk. cbn [negb receive].
  unfold bindM at 1. unfold retM at 1.
  unfold bindM at 1. unfold log_Printf at 1, effect at 1.
  unfold bindM at 1. rewrite (locked_assign_found _ _ info) by done.
  unfold bindM at 1. rewrite (updateStreamState_found _ _ info) by done.
  cbn zeta.
  unfold bindM at 1. unfold effect at 1.
  unfold bindM at 1. unfold log_Printf at 1, effect at 1.
  unfold bindM at 1. rewrite (locked_assign_found _ _ info) by done.
  unfold bindM at 1. rewrite (updateStreamState_found _ _ info) by done.
  cbn zeta. unfold bindM at 1.
  match goal with |- context [transcodeToHLS ?e ?c ?i ?f ?d ?W] =>
    destruct (transcodeToHLS_started e c i f d W Hpipe Hstart)
      as (w1 & -> & Hs1 & Hh1 & Hd1 & Hp1) end.
  cbn in Hs1, Hh1, Hd1, Hp1.
  unfold transcode_result, state_after_wait in *. rewrite Hpipe, Hstart.
  destruct (cmd_Wait env) as [[err|]|].
  - rewrite Hctx. unfold bindM. rewrite (updateStreamState_found _ _ info) by congruence.
    cbn. intros [= <- <- <-]. unfold lookup_stream. cbn.
    rewrite Hs1, Hh1, Hs, Hd1, Hp1, !list_lookup_alter_eq, Hh. cbn.
    repeat split. intros [_ Hnot]%elem_of_difference. apply Hnot. by apply elem_of_singleton.
  - rewrite (updateStreamState_found _ _ info) by congruence.
    cbn. intros [= <- <- <-]. unfold observed_state, lookup_stream. cbn.
    rewrite Hs1, Hh1, Hs, Hd1, Hp1, !list_lookup_alter_eq, Hh. cbn.
    repeat split. apply elem_of_union. right. by apply elem_of_singleton.
  - intros [= <- <- <-]. unfold observed_state, lookup_stream.
    rewrite Hs1, Hh1, Hs, Hd1, Hp1, !list_lookup_alter_eq, Hh. cbn.
    repeat split. apply elem_of_union. right. by apply elem_of_singleton.
Qed.

Lemma cancellation_not_acted_on_witness :
  let res := manageStream Sample.svc Sample.env_hangs Sample.cancelled "17" Sample.movie
               Sample.w_prepared in
  let hlsDir := "/tmp/torrent-hls-service1/hls-17-001" in
  outcome_of res = Block /\
  observed_state "17" (world_of res) = Some StateTranscoding /\
  procs (world_of res)
  = procs Sample.w_prepared ++ [{| proc_argv := ffmpeg_argv hlsDir; proc_state := Running |}] /\
  hlsDir ∈ dirs (world_of res).
Proof.
  assert (H : points_to Sample.w_prepared "17" 0%nat
                (transition StateGettingInfo None
                   (set_Torrent (Some Sample.movie)
                      (new_StreamInfo "17" "magnet:?xt=urn:btih:c12f"))))
    by (split; reflexivity).
  exact (cancellation_not_acted_on Sample.svc Sample.env_hangs Sample.cancelled "17"
           Sample.movie Sample.w_prepared 0%nat _
           {| file_Path := "movie.mkv"; file_Length := 5000 |}
           "/tmp/torrent-hls-service1/hls-17-001" "context canceled"
           H eq_refl eq_refl eq_refl eq_refl eq_refl eq_refl eq_refl).
Defined.

(** The same cancelled run with a transcoder that ends with status 0:
    the stream is ready and its directory stays. *)
Example cancelled_yet_ready :
  let res := manageStream Sample.svc Sample.env_ok Sample.cancelled "17" Sample.movie
               Sample.w_prepared in
  outcome_of res = Ret tt /\
  lookup_stream (world_of res) "17" = lookup_stream Sample.w_ready "17" /\
  observed_state "17" (world_of res) = Some StateReady.
Proof. vm_compute. done. Qed.

(* ===================================================================== *)
(** ** What every step of the service keeps *)
(* ===================================================================== *)

Section Respects.

Context (R : World -> World -> Prop) `{!Stable R}.

Lemma respects_ret {A} (a : A) : respects R (retM a).
Proof. intros w. split; [apply stable_refl|constructor]. Qed.

Lemma respects_block {A} : respects R (@blockM A).
Proof. intros w. split; [apply stable_refl|constructor]. Qed.

Lemma respects_bind {A B} (m : M A) (k : A -> M B) :
  respects R m -> (forall a, respects R (k a)) -> respects R (bindM m k).
Proof.
  intros Hm Hk w. unfold bindM.
  destruct (Hm w) as [Hw Ht]. destruct (m w) as [[[a|msg|] w1] t1]; [|done..].
  destruct (Hk a w1) as [Hw2 Ht2]. destruct (k a w1) as [[o w2] t2].
  unfold world_of, trace_of in *. cbn in *. split.
  - by eapply stable_trans.
  - apply Forall_app. split; [done|].
    eapply Forall_impl; [exact Ht2|]. intros w'. by apply stable_trans.
Qed.

Lemma respects_effect (f : World -> World) :
  (forall w, R w (f w)) -> respects R (effect f).
Proof. intros Hf w. split; [apply Hf|constructor]. Qed.

Lemma respects_log (line : string) : respects R (log_Printf line).
Proof. apply respects_effect. intros w. by apply stable_silent. Qed.

Lemma respects_load {A} (info : addr) (field : StreamInfo -> A) : respects R (load info field).
Proof. intros w. unfold load. destruct (heap w !! info); (split; [apply stable_refl|constructor]). Qed.

Lemma respects_store (info : addr) (f : StreamInfo -> StreamInfo) :
  good_update f -> respects R (store info f).
Proof. intros Hf. apply respects_effect. intros w. by apply stable_alter. Qed.

Lemma respects_locked_assign (streamID : string) (f : StreamInfo -> StreamInfo) :
  good_update f -> respects R (locked_assign streamID f).
Proof.
  intros Hf w. unfold locked_assign, locked.
  destruct (streams w !! streamID); cbn.
  - split; [|constructor; [|constructor]]; by apply stable_alter.
  - split; [|constructor; [|constructor]]; apply stable_refl.
Qed.

Lemma respects_register (streamID magnetURI : string) :
  respects R (register_stream streamID magnetURI).
Proof.
  intros w. unfold register_stream, locked. cbn.
  split; [|constructor; [|constructor]]; apply stable_register.
Qed.

Lemma respects_scan_stderr (streamID : string) (lines : list string) :
  respects R (scan_stderr streamID lines).
Proof.
  induction lines as [|line lines IH]; cbn [scan_stderr]; [apply respects_ret|].
  apply respects_bind; [apply respects_log|]. intros _.
  apply respects_bind; [|done].
  destruct (_ || _); [apply respects_log|apply respects_ret].
Qed.

Lemma respects_transcodeToHLS env ctx streamID file hlsDir :
  respects R (transcodeToHLS env ctx streamID file hlsDir).
Proof.
  unfold transcodeToHLS.
  destruct (cmd_StderrPipe env); [apply respects_ret|].
  destruct (cmd_Start env); [apply respects_ret|].
  apply respects_bind; [apply respects_effect; intros w; by apply stable_silent|]. intros _.
  apply respects_bind; [apply respects_log|]. intros _.
  apply respects_bind; [apply respects_scan_stderr|]. intros _.
  destruct (cmd_Wait env) as [err|]; [|apply respects_block].
  apply respects_bind; [apply respects_effect; intros w; by apply stable_silent|]. intros _.
  destruct err; [destruct (ctx_Err ctx); apply respects_ret|].
  apply respects_bind; [apply respects_log|]. intros _. apply respects_ret.
Qed.

End Respects.

Section GoodUpdates.

Lemma good_transition (state : StreamState) (err : option error) :
  (state = StateError <-> is_Some err) -> good_update (transition state err).
Proof. intros H r. repeat split; try done; cbn; intros; by apply H. Qed.

Lemma good_transition_error (e : error) : good_update (transition StateError (Some e)).
Proof. apply good_transition. split; eauto. Qed.

Lemma good_transition_nil (state : StreamState) :
  state <> StateError -> good_update (transition state None).
Proof. intros H. apply good_transition. split; [done|]. by intros [? [=]]. Qed.

Lemma good_set_File f : good_update (set_File f).
Proof. intros r. repeat split; cbn; apply H. Qed.

Lemma good_set_HlsDir d : good_update (set_HlsDir d).
Proof. intros r. repeat split; cbn; apply H. Qed.

Lemma good_set_Torrent t : good_update (set_Torrent t).
Proof. intros r. repeat split; cbn; apply H. Qed.

End GoodUpdates.

Section RespectsService.

Context (R : World -> World -> Prop) `{!Stable R}.

Lemma respects_updateStreamState streamID state err :
  (state = StateError <-> is_Some err) ->
  respects R (updateStreamState streamID state err).
Proof.
  intros Hpair w. unfold updateStreamState, locked.
  destruct (streams w !! streamID) as [info|]; cbn.
  - assert (HR : forall line, R w (log_line line
                                   (with_heap (alter (transition state err) info) w))).
    { intros line. eapply stable_trans; [by apply stable_alter, good_transition|].
      by apply stable_silent. }
    destruct err; cbn; (split; [|constructor; [|constructor]]); apply HR.
  - split; [|constructor; [|constructor]]; apply stable_refl.
Qed.

Lemma respects_fail streamID (e : error) :
  respects R (updateStreamState streamID StateError (Some e)).
Proof. apply respects_updateStreamState. split; eauto. Qed.

Lemma respects_advance streamID state :
  state <> StateError -> respects R (updateStreamState streamID state None).
Proof. intros H. apply respects_updateStreamState. split; [done|]. by intros [? [=]]. Qed.

Lemma respects_manageStream s env ctx streamID t :
  respects R (manageStream s env ctx streamID t).
Proof.
  unfold manageStream.
  apply (respects_bind R);
    [unfold receive; destruct (torrent_GotInfo t); [by apply (respects_ret R)|by apply (respects_block R)]|].
  intros _. destruct (negb (torrent_Info t)); [apply respects_fail; done|].
  destruct (select_largest (torrent_Files t) None) as [largestFile|];
    [|apply respects_fail; done].
  apply (respects_bind R); [by apply (respects_log R)|]. intros _.
  apply (respects_bind R); [apply (respects_locked_assign R), good_set_File|]. intros _.
  apply (respects_bind R); [by apply respects_advance|]. intros _.
  destruct (os_MkdirTemp env (baseTempDir s) ("hls-" +:+ streamID +:+ "-")) as [hlsDir|err];
    [|apply respects_fail; done].
  apply (respects_bind R); [apply (respects_effect R); intros w; by apply stable_silent|]. intros _.
  apply (respects_bind R); [by apply (respects_log R)|]. intros _.
  apply (respects_bind R); [apply (respects_locked_assign R), good_set_HlsDir|]. intros _.
  apply (respects_bind R); [by apply respects_advance|]. intros _.
  apply (respects_bind R); [by apply (respects_transcodeToHLS R)|]. intros [err|].
  - apply (respects_bind R); [by apply respects_fail|]. intros _.
    apply (respects_effect R). intros w. by apply stable_silent.
  - by apply respects_advance.
Qed.

Lemma respects_PrepareStream s ctx magnetURI now :
  respects R (PrepareStream s ctx magnetURI now).
Proof.
  unfold PrepareStream.
  apply (respects_bind R); [by apply (respects_register R)|]. intros info.
  apply (respects_bind R); [by apply (respects_log R)|]. intros _.
  destruct (AddMagnet (client s) magnetURI) as [t|err].
  - apply (respects_bind R); [apply (respects_store R), good_set_Torrent|]. intros _.
    apply (respects_bind R); [by apply respects_advance|]. intros _. by apply (respects_ret R).
  - apply (respects_bind R); [by apply respects_fail|]. intros _.
    apply (respects_bind R); [by apply (respects_load R)|]. intros e. by apply (respects_ret R).
Qed.

Lemma respects_ServeHTTP r : respects R (ServeHTTP r).
Proof.
  intros w. unfold ServeHTTP.
  destruct (strings_SplitN _ _ _) as [|p0 [|streamID [|fileName [|? ?]]]];
    try apply (respects_ret R).
  destruct (streams w !! streamID) as [stream|].
  - destruct (strings_Contains fileName ".."); [apply (respects_ret R)|].
    apply (respects_bind R); [by apply (respects_load R)|]. intros d.
    destruct (String.eqb (Method r) "OPTIONS"); by apply (respects_ret R).
  - apply (respects_bind R); [by apply (respects_log R)|]. intros _. by apply (respects_ret R).
Qed.

Lemma respects_AddTorrentHandler h r now : respects R (AddTorrentHandler h r now).
Proof.
  unfold AddTorrentHandler.
  destruct (negb _); [by apply (respects_ret R)|].
  destruct (String.eqb _ _); [by apply (respects_ret R)|].
  apply (respects_bind R); [by apply (respects_log R)|]. intros _.
  apply (respects_bind R); [by apply respects_PrepareStream|]. intros [[info err] g]. cbn.
  destruct err as [err|].
  - apply (respects_bind R); [by apply (respects_log R)|]. intros _. by apply (respects_ret R).
  - apply (respects_bind R); [by apply (respects_load R)|]. intros id.
    apply (respects_bind R); [by apply (respects_log R)|]. intros _.
    apply (respects_bind R); [by apply (respects_load R)|]. intros st. by apply (respects_ret R).
Qed.

End RespectsService.

Section StableInstances.

Lemma keeps_identity_refl w : keeps_identity w w.
Proof. split; [done|]. intros info r Hr. eauto. Qed.

Lemma keeps_identity_trans w1 w2 w3 :
  keeps_identity w1 w2 -> keeps_identity w2 w3 -> keeps_identity w1 w3.
Proof.
  intros [Hs12 Hh12] [Hs23 Hh23]. split; [by auto|].
  intros info r Hr. destruct (Hh12 _ _ Hr) as (r2 & Hr2 & Hid & Hm).
  destruct (Hh23 _ _ Hr2) as (r3 & Hr3 & Hid' & Hm'). exists r3. split; [done|]. split; congruence.
Qed.

Global Instance keeps_identity_stable : Stable keeps_identity.
Proof.
  split.
  - apply keeps_identity_refl.
  - apply keeps_identity_trans.
  - intros w w' Hs Hh. split; [by rewrite Hs|]. intros info r Hr. rewrite Hh. eauto.
  - intros w info f Hf. split; [done|]. intros a r Hr. cbn.
    rewrite list_lookup_alter. case_decide as Ha; [|eauto].
    subst a. rewrite Hr. cbn. destruct (Hf r) as (? & ? & _). eauto.
  - intros w streamID magnetURI. split.
    + intros id' Hid'. cbn. rewrite lookup_insert. by case_decide.
    + intros a r Hr. cbn. exists r. split; [by apply lookup_app_l_Some|done].
Qed.

Global Instance sound_kept_stable : Stable sound_kept.
Proof.
  split.
  - intros w H. exact H.
  - intros w1 w2 w3 H12 H23 H1. by apply H23, H12.
  - intros w w' Hs Hh [Hreg Hcoh]. split.
    + intros id info. rewrite Hs, Hh. apply Hreg.
    + by rewrite Hh.
  - intros w info f Hf [Hreg Hcoh]. split.
    + intros id a Ha. cbn in *. destruct (Hreg _ _ Ha) as (r & Hr & Hid).
      rewrite list_lookup_alter. case_decide as Hinfo.
      * subst a. rewrite Hr. cbn. destruct (Hf r) as (HID & _). exists (f r). split; [done|congruence].
      * eauto.
    + cbn. apply Forall_alter; [done|]. intros r _ Hr. by apply Hf.
  - intros w streamID magnetURI [Hreg Hcoh]. split.
    + intros id a. cbn. rewrite lookup_insert. case_decide as Hid.
      * intros [= <-]. subst id. rewrite list_lookup_middle by done. eauto.
      * intros Ha. destruct (Hreg _ _ Ha) as (r & Hr & HID).
        exists r. split; [by apply lookup_app_l_Some|done].
    + cbn. apply Forall_app. split; [done|]. constructor; [|constructor].
      split; [done|]. by intros [? [=]].
Qed.

End StableInstances.

(* ===================================================================== *)
(** ** The handler of /add *)
(* ===================================================================== *)

Section AddHandler.

Implicit Types (h : TorrentHandler) (r : AddRequest) (w : World).

(** What the handler does with a GET that carries a magnet link. *)
Lemma AddTorrentHandler_run h r now w :
  add_Method r = "GET" -> add_magnet r <> "" ->
  let s := Handler_HlsService h in
  let magnetURI := add_magnet r in
  let streamID := Sprintf_d now in
  let created := PrepareStream s (add_Context r) magnetURI now
                   (log_line ("Received request to add magnet: " +:+ magnetURI) w) in
  AddTorrentHandler h r now w =
  match AddMagnet (client s) magnetURI with
  | Err err =>
      let e := Errorf_w "error adding magnet: " err in
      (Ret (add_Error ("Error preparing stream: " +:+ e) 500, None),
       log_line ("Error preparing stream: " +:+ e) (world_of created), trace_of created)
  | Ok t =>
      let hlsURL := hls_url (Handler_ListenAddr h) streamID in
      (Ret (add_JSON [("streamId", streamID); ("hlsUrl", hlsURL);
                      ("status", "getting_info")],
            Some (go_manageStream (add_Context r) streamID t)),
       log_line ("Stream " +:+ streamID +:+ " prepared. HLS URL: " +:+ hlsURL)
         (world_of created),
       trace_of created)
  end.
Proof.
  intros Hget Hmag. unfold AddTorrentHandler. cbv zeta.
  rewrite Hget, String.eqb_refl. cbn [negb].
  destruct (String.eqb_spec (add_magnet r) ""); [done|].
  unfold bindM at 1. unfold log_Printf at 1, effect at 1. cbv beta iota.
  unfold bindM at 1.
  remember (PrepareStream (Handler_HlsService h) (add_Context r) (add_magnet r) now
              (log_line ("Received request to add magnet: " +:+ add_magnet r) w))
    as created eqn:Hcreated.
  rewrite PrepareStream_run in Hcreated. cbv zeta in Hcreated.
  destruct (AddMagnet (client (Handler_HlsService h)) (add_magnet r)) as [t|err];
    subst created; cbn -[String.append]; [|reflexivity].
  unfold bindM, load, log_Printf, effect, retM.
  cbn [heap log_line with_logged with_heap with_streams].
  repeat (rewrite !list_lookup_alter_eq, list_lookup_middle by done; cbn -[String.append]).
  reflexivity.
Qed.

End AddHandler.

(* ===================================================================== *)
(** ** The running service *)
(* ===================================================================== *)

Section Service.

Implicit Types (h : TorrentHandler) (st : System) (w : World).

Lemma PrepareStream_no_panic s ctx magnetURI now w :
  is_panic (outcome_of (PrepareStream s ctx magnetURI now w)) = false /\
  forall g, started (PrepareStream s ctx magnetURI now w) = Some g ->
            is_Some (streams (world_of (PrepareStream s ctx magnetURI now w))
                     !! goroutine_stream g).
Proof.
  rewrite PrepareStream_run. cbv zeta.
  destruct (AddMagnet (client s) magnetURI); (split; [done|]); intros g [= <-].
  cbn. rewrite lookup_insert_eq. eauto.
Qed.

Lemma AddTorrentHandler_no_panic h r now w :
  is_panic (outcome_of (AddTorrentHandler h r now w)) = false /\
  forall g, add_started (AddTorrentHandler h r now w) = Some g ->
            is_Some (streams (world_of (AddTorrentHandler h r now w))
                     !! goroutine_stream g).
Proof.
  destruct (String.eqb_spec (add_Method r) "GET") as [Hget|Hget].
  - destruct (String.eqb_spec (add_magnet r) "") as [Hmag|Hmag].
    + unfold AddTorrentHandler. rewrite Hget, Hmag. done.
    + rewrite AddTorrentHandler_run by done. cbv zeta.
      rewrite PrepareStream_run. cbv zeta.
      destruct (AddMagnet _ _); (split; [done|]); intros g [= <-].
      cbn. rewrite lookup_insert_eq. eauto.
  - unfold AddTorrentHandler.
    destruct (String.eqb_spec (add_Method r) "GET"); done.
Qed.

Lemma ServeHTTP_no_panic r w :
  registry_ok w -> is_panic (outcome_of (ServeHTTP r w)) = false.
Proof.
  intros Hreg. unfold ServeHTTP.
  destruct (strings_SplitN _ _ _) as [|p0 [|streamID [|fileName [|? ?]]]]; try done.
  destruct (streams w !! streamID) as [stream|] eqn:Hs; [|done].
  destruct (strings_Contains fileName ".."); [done|].
  destruct (Hreg _ _ Hs) as (rec & Hrec & _).
  unfold bindM, load. rewrite Hrec. by destruct (String.eqb _ _).
Qed.

Lemma run_goroutine_no_panic s env g w :
  registry_ok w -> is_Some (streams w !! goroutine_stream g) ->
  is_panic (outcome_of (run_goroutine s env g w)) = false.
Proof.
  intros Hreg [info Hinfo]. destruct g as [ctx streamID t]. cbn in *.
  destruct (Hreg _ _ Hinfo) as (rec & Hrec & _).
  destruct (manageStream_view s env ctx streamID t w info rec) as (_ & _ & _ & _ & Hnp);
    [done|].
  destruct (outcome_of _) eqn:Ho; try done. by destruct (Hnp msg).
Qed.

(** Each event leaves a sound system sound. *)
Lemma sys_step_ok h st ev : sys_ok st -> sys_ok (sys_step h st ev).
Proof.
  intros (Hnp & Hsound & Hpend). unfold sys_step. rewrite Hnp.
  assert (Hkeep : forall A (m : M A),
             respects sound_kept m -> respects keeps_identity m ->
             sound (world_of (m (sys_world st))) /\
             forall g, g ∈ sys_pending st ->
                       is_Some (streams (world_of (m (sys_world st))) !! goroutine_stream g)).
  { intros A m Hs Hk. split; [by apply (Hs (sys_world st))|].
    intros g Hg. destruct (Hk (sys_world st)) as [[Hreg _] _]. by apply Hreg, Hpend. }
  destruct ev as [r now|ctx magnetURI now|r|i env].
  - destruct (Hkeep _ (AddTorrentHandler h r now)) as [Hs' Hp'];
      [by apply respects_AddTorrentHandler; apply _..|].
    destruct (AddTorrentHandler_no_panic h r now (sys_world st)) as [Hno Hg].
    split; [done|]. split; [done|]. cbn.
    intros g [Hin|Hin]%elem_of_app; [by apply Hp'|].
    destruct (add_started _) as [g'|]; cbn in Hin; [|by apply elem_of_nil in Hin].
    apply list_elem_of_singleton in Hin as ->. by apply Hg.
  - destruct (Hkeep _ (PrepareStream (Handler_HlsService h) ctx magnetURI now)) as [Hs' Hp'];
      [by apply respects_PrepareStream; apply _..|].
    destruct (PrepareStream_no_panic (Handler_HlsService h) ctx magnetURI now (sys_world st))
      as [Hno Hg].
    split; [done|]. split; [done|]. cbn.
    intros g [Hin|Hin]%elem_of_app; [by apply Hp'|].
    destruct (started _) as [g'|]; cbn in Hin; [|by apply elem_of_nil in Hin].
    apply list_elem_of_singleton in Hin as ->. by apply Hg.
  - destruct (Hkeep _ (ServeHTTP r)) as [Hs' Hp'];
      [by apply respects_ServeHTTP; apply _..|].
    split; [by apply ServeHTTP_no_panic, Hsound|]. done.
  - destruct (sys_pending st !! i) as [g|] eqn:Hi; [|done].
    destruct (Hkeep _ (run_goroutine (Handler_HlsService h) env g)) as [Hs' Hp'];
      [destruct g; by apply respects_manageStream; apply _..|].
    split.
    { apply run_goroutine_no_panic; [apply Hsound|]. apply Hpend.
      by eapply list_elem_of_lookup_2. }
    split; [done|]. cbn. intros g' Hg'. apply Hp'.
    apply list_elem_of_lookup in Hg' as [j Hj].
    rewrite list_lookup_delete in Hj. case_decide; by eapply list_elem_of_lookup_2.
Qed.

Lemma sys_boot_ok tempDir : sys_ok (sys_boot (NewWorld tempDir)).
Proof.
  split; [done|]. split; [|by intros g ?%elem_of_nil].
  split; [|constructor]. intros id info. cbn. by rewrite lookup_empty.
Qed.

Lemma sys_run_ok h st evs : sys_ok st -> sys_ok (sys_run h st evs).
Proof.
  revert st. induction evs as [|ev evs IH]; intros st Hst; [done|].
  cbn. by apply IH, sys_step_ok.
Qed.

Lemma sys_step_keeps h st ev : keeps_identity (sys_world st) (sys_world (sys_step h st ev)).
Proof.
  unfold sys_step. destruct (sys_panicked st); [apply keeps_identity_refl|].
  destruct ev as [r now|ctx magnetURI now|r|i env]; cbn.
  - by apply (respects_AddTorrentHandler keeps_identity).
  - by apply (respects_PrepareStream keeps_identity).
  - by apply (respects_ServeHTTP keeps_identity).
  - destruct (sys_pending st !! i) as [[ctx streamID t]|]; [|apply keeps_identity_refl].
    by apply (respects_manageStream keeps_identity).
Qed.

End Service.

(** X1.  Whatever requests arrive and however the pending pipelines are
    scheduled, each run to its end in one step, the service [main] builds
    from a successful [NewHlsService] never panics; every pointer of its
    registry refers to a record that carries the id it is registered
    under; every record is in [StateError] exactly when it holds an error;
    and every pipeline not yet run belongs to a registered stream. *)
Theorem service_stays_sound (cl : torrent_Client) (addr : string) (mkdir : result string)
    (s : HlsService) (w0 : World) (h : TorrentHandler) (evs : list Event) :
  NewHlsService cl addr mkdir = Ok (s, w0) ->
  Handler_HlsService h = s ->
  sys_ok (sys_run h (sys_boot w0) evs).
Proof.
  unfold NewHlsService. destruct mkdir as [tempDir|err]; [|done].
  intros [= <- <-] _. apply sys_run_ok, sys_boot_ok.
Qed.

Lemma service_stays_sound_witness :
  sys_ok (sys_run SampleService.handler (sys_boot (NewWorld "/tmp/torrent-hls-service1"))
            SampleService.day).
Proof.
  exact (service_stays_sound Sample.cl "localhost:8080" (Ok "/tmp/torrent-hls-service1")
           Sample.svc (NewWorld "/tmp/torrent-hls-service1") SampleService.handler
           SampleService.day eq_refl eq_refl).
Defined.

(** The sample day ends with two streams, the first one ready, and no
    pipeline pending. *)
Example sample_day :
  let st := sys_run SampleService.handler (sys_boot (NewWorld "/tmp/torrent-hls-service1"))
              SampleService.day in
  observed_state "17" (sys_world st) = Some StateReady /\
  observed_state "18" (sys_world st) = Some StateError /\
  sys_pending st = [] /\ sys_panicked st = false.
Proof. vm_compute. done. Qed.

(** X2.  From any state of the service and over any sequence of events,
    no stream leaves the registry, no record is dropped, and no record
    changes its id or its magnet link. *)
Theorem service_keeps_identity (h : TorrentHandler) (st : System) (evs : list Event) :
  keeps_identity (sys_world st) (sys_world (sys_run h st evs)).
Proof.
  revert st. induction evs as [|ev evs IH]; intros st; [apply keeps_identity_refl|].
  cbn. eapply keeps_identity_trans; [apply sys_step_keeps|apply IH].
Qed.

(* ===================================================================== *)
(** ** More on the segment file server *)
(* ===================================================================== *)

(** X3.  Serving a request reads the registry and writes nothing: the
    streams, their records, the directories, the files and the processes
    are as before, no world is published, and at most one line is added to
    the log. *)
Theorem ServeHTTP_read_only (r : Request) (w : World) :
  let w' := world_of (ServeHTTP r w) in
  streams w' = streams w /\ heap w' = heap w /\ dirs w' = dirs w /\
  files w' = files w /\ procs w' = procs w /\
  trace_of (ServeHTTP r w) = [] /\
  (logged w' = logged w \/ exists line, logged w' = logged w ++ [line]).
Proof.
  cbv zeta. unfold ServeHTTP.
  destruct (strings_SplitN _ _ _) as [|p0 [|streamID [|fileName [|? ?]]]];
    try (repeat split; by left).
  destruct (streams w !! streamID) as [stream|].
  - destruct (strings_Contains fileName ".."); [repeat split; by left|].
    unfold bindM, load. destruct (heap w !! stream); [|repeat split; by left].
    destruct (String.eqb _ _); repeat split; by left.
  - repeat split. right. eauto.
Qed.

(** X4.  A reply other than 404 is given only for a path of three parts
    whose second part is the id of a registered stream; the first part is
    not looked at. *)
Theorem ServeHTTP_only_registered (r : Request) (w : World) (rep : Reply) :
  outcome_of (ServeHTTP r w) = Ret rep ->
  rep <> http_NotFound ->
  exists p0 streamID fileName,
    strings_SplitN (strings_TrimPrefix (URL_Path r) "/") "/" 3 = [p0; streamID; fileName] /\
    is_Some (streams w !! streamID).
Proof.
  unfold ServeHTTP.
  destruct (strings_SplitN _ _ _) as [|p0 [|streamID [|fileName [|? ?]]]];
    try (intros [= <-]; done).
  destruct (streams w !! streamID) as [stream|] eqn:Hs; [|intros [= <-]; done].
  intros _ _. exists p0, streamID, fileName. eauto.
Qed.

Lemma ServeHTTP_only_registered_witness :
  outcome_of (ServeHTTP (segment_request "GET" "17" "segment000.ts") Sample.w_ready)
  = Ret (http_ServeFile cors_header "/tmp/torrent-hls-service1/hls-17-001/segment000.ts") /\
  exists p0 streamID fileName,
    strings_SplitN (strings_TrimPrefix
                      (URL_Path (segment_request "GET" "17" "segment000.ts")) "/") "/" 3
    = [p0; streamID; fileName] /\
    is_Some (streams Sample.w_ready !! streamID).
Proof.
  assert (H : outcome_of (ServeHTTP (segment_request "GET" "17" "segment000.ts")
                            Sample.w_ready)
              = Ret (http_ServeFile cors_header
                       "/tmp/torrent-hls-service1/hls-17-001/segment000.ts"))
    by (vm_compute; reflexivity).
  split; [exact H|].
  exact (ServeHTTP_only_registered _ _ _ H ltac:(discriminate)).
Defined.

(** X5.  An OPTIONS request for a file of a registered stream, the name
    free of [..], is answered 200 with the three CORS headers; no file is
    looked up, so the answer is the same whether or not the stream has a
    working directory or the file exists, and the world is left as it
    was. *)
Theorem preflight_answered (w : World) (streamID fileName : string) (info : addr)
    (rec : StreamInfo) :
  strings_Contains streamID "/" = false ->
  strings_Contains fileName ".." = false ->
  points_to w streamID info rec ->
  ServeHTTP (segment_request "OPTIONS" streamID fileName) w
  = (Ret (WriteHeader cors_header 200), w, []) /\
  reply_file (WriteHeader cors_header 200) = None /\
  reply_status w (WriteHeader cors_header 200) = 200.
Proof.
  intros Hid Hdots [Hs Hh]. rewrite ServeHTTP_segment by done.
  by rewrite Hs, Hdots, Hh.
Qed.

Lemma preflight_answered_witness :
  ServeHTTP (segment_request "OPTIONS" "17" "no-such-file.ts") Sample.w_prepared
  = (Ret (WriteHeader cors_header 200), Sample.w_prepared, []) /\
  reply_file (WriteHeader cors_header 200) = None /\
  reply_status Sample.w_prepared (WriteHeader cors_header 200) = 200.
Proof.
  refine (preflight_answered Sample.w_prepared "17" "no-such-file.ts" 0%nat _ _ _ _);
    [reflexivity|reflexivity|split; reflexivity].
Defined.

Section Containment.

Implicit Types (c : ascii) (s a b dir fileName : string) (out l : list string).

Lemma split_byte_not_nil c s : split_byte c s <> [].
Proof.
  destruct s as [|d s]; cbn [split_byte]; [done|].
  destruct (Ascii.eqb d c); [done|]. by destruct (split_byte c s).
Qed.

(** Splitting at [c] distributes over joining with [c]. *)
Lemma split_byte_app c a b :
  split_byte c (a +:+ String c b) = split_byte c a ++ split_byte c b.
Proof.
  induction a as [|d a IH].
  - change ("" +:+ String c b) with (String c b). cbn [split_byte].
    by rewrite Ascii.eqb_refl.
  - change (String d a +:+ String c b) with (String d (a +:+ String c b)).
    cbn [split_byte]. rewrite IH. destruct (Ascii.eqb d c); [done|].
    pose proof (split_byte_not_nil c a). by destruct (split_byte c a).
Qed.

(** Without a [..] among them, path elements only pile up. *)
Lemma fold_clean_step_pile (rooted : bool) l out :
  ".." ∉ l ->
  fold_left (clean_step rooted) l out
  = rev (filter (fun e => e <> "" /\ e <> ".") l) ++ out.
Proof.
  revert out. induction l as [|e l IH]; intros out Hno; [done|].
  apply not_elem_of_cons in Hno as [He Hl]. cbn [fold_left].
  rewrite IH by done. unfold clean_step.
  destruct (String.eqb_spec e "") as [->|H1].
  { rewrite filter_cons_False; [done|]. by intros [? _]. }
  destruct (String.eqb_spec e ".") as [->|H2].
  { rewrite filter_cons_False; [done|]. by intros [_ ?]. }
  destruct (String.eqb_spec e ".."); [done|].
  rewrite filter_cons_True by done. cbn [rev]. by rewrite <- app_assoc.
Qed.

Lemma HasPrefix_slash_app dir s :
  dir <> "" -> strings_HasPrefix (dir +:+ s) "/" = strings_HasPrefix dir "/".
Proof. by destruct dir. Qed.

Lemma Clean_elems path :
  path <> "" ->
  filepath_Clean path = path_of_elems (strings_HasPrefix path "/") (clean_elems path).
Proof.
  intros Hne. unfold filepath_Clean, path_of_elems, clean_elems.
  destruct (String.eqb_spec path ""); [done|]. reflexivity.
Qed.

Lemma no_dotdot_element fileName :
  strings_Contains fileName ".." = false -> ".." ∉ split_byte "/" fileName.
Proof. intros Hno Hin. apply dotdot_segment_Contains in Hin. congruence. Qed.

(** Joining a directory with a name free of [..]: the elements of the
    cleaned directory, then elements of the name. *)
Lemma Join_contained dir fileName :
  dir <> "" ->
  strings_Contains fileName ".." = false ->
  filepath_Join [dir; fileName]
  = path_of_elems (strings_HasPrefix dir "/")
      (clean_elems dir
       ++ filter (fun e => e <> "" /\ e <> ".") (split_byte "/" fileName)).
Proof.
  intros Hdir Hno. rewrite Join_dir by done.
  rewrite Clean_elems by (by destruct dir).
  rewrite HasPrefix_slash_app by done. f_equal.
  unfold clean_elems. rewrite HasPrefix_slash_app by done.
  change (dir +:+ "/" +:+ fileName) with (dir +:+ String "/" fileName).
  rewrite split_byte_app, fold_left_app.
  rewrite fold_clean_step_pile by by apply no_dotdot_element.
  by rewrite rev_app_distr, rev_involutive.
Qed.

End Containment.

(** X6.  The file the server reads for a stream lies in the stream's
    working directory.  For a registered stream with a working directory
    and a requested name free of [..], the path handed to
    [http.ServeFile] consists of the elements of the cleaned working
    directory followed by elements of the requested name, none of them
    [..]. *)
Theorem served_path_contained (w : World) (streamID fileName : string) (info : addr)
    (rec : StreamInfo) :
  strings_Contains streamID "/" = false ->
  strings_Contains fileName ".." = false ->
  points_to w streamID info rec ->
  HlsDir rec <> "" ->
  let rooted := strings_HasPrefix (HlsDir rec) "/" in
  exists extra,
    filepath_Clean (HlsDir rec) = path_of_elems rooted (clean_elems (HlsDir rec)) /\
    ServeHTTP (segment_request "GET" streamID fileName) w
    = (Ret (http_ServeFile cors_header
              (path_of_elems rooted (clean_elems (HlsDir rec) ++ extra))), w, []) /\
    forall e, e ∈ extra -> e ∈ split_byte "/" fileName /\ e <> ".." /\ e <> "" /\ e <> ".".
Proof.
  intros Hid Hno [Hs Hh] Hdir. cbv zeta.
  exists (filter (fun e => e <> "" /\ e <> ".") (split_byte "/" fileName)).
  split; [by apply Clean_elems|]. split.
  - rewrite ServeHTTP_segment by done. rewrite Hs, Hno, Hh. cbn [String.eqb].
    by rewrite Join_contained.
  - intros e [[H1 H2] Hin]%list_elem_of_filter. repeat split; try done.
    intros ->. by apply (no_dotdot_element fileName).
Qed.

Lemma served_path_contained_witness :
  let dir := "/tmp/torrent-hls-service1/hls-17-001" in
  exists extra,
    filepath_Clean dir = path_of_elems true (clean_elems dir) /\
    ServeHTTP (segment_request "GET" "17" "a/./b//segment000.ts") Sample.w_ready
    = (Ret (http_ServeFile cors_header
              (path_of_elems true (clean_elems dir ++ extra))), Sample.w_ready, []) /\
    forall e, e ∈ extra ->
      e ∈ split_byte "/" "a/./b//segment000.ts" /\ e <> ".." /\ e <> "" /\ e <> ".".
Proof.
  pose (rec := default (new_StreamInfo "" "") (heap Sample.w_ready !! 0%nat)).
  assert (Hdir : HlsDir rec <> "") by (vm_compute; discriminate).
  exact (served_path_contained Sample.w_ready "17" "a/./b//segment000.ts" 0%nat rec
           eq_refl eq_refl (conj eq_refl eq_refl) Hdir).
Defined.

(* ===================================================================== *)
(** ** More facts about the string functions *)
(* ===================================================================== *)

Section Paths.

Implicit Types (dir fileName sep : string) (base extra : list string).

Lemma append_assoc (a b c : string) : (a +:+ b) +:+ c = a +:+ b +:+ c.
Proof.
  induction a as [|x a IH]; [done|].
  change ((String x a +:+ b) +:+ c) with (String x ((a +:+ b) +:+ c)).
  by rewrite IH.
Qed.

Lemma pretty_N_go_no_slash (x : N) (s : string) :
  strings_Contains s "/" = false -> strings_Contains (pretty_N_go x s) "/" = false.
Proof.
  revert s. induction (N.lt_wf_0 x) as [x _ IH]; intros s Hs.
  assert (x = 0 \/ 0 < x)%N as [->|Hpos] by lia.
  - by rewrite pretty_N_go_0.
  - rewrite pretty_N_go_step by done. apply IH.
    { by apply N.div_lt. }
    cbn [strings_Contains]. rewrite HasPrefix_slash_cons, Hs.
    unfold pretty_N_char. by repeat case_match.
Qed.

(** A stream id made by [PrepareStream] holds no slash. *)
Lemma Sprintf_d_no_slash (n : Z) : strings_Contains (Sprintf_d n) "/" = false.
Proof.
  unfold Sprintf_d, pretty, pretty_Z. destruct n as [|p|p]; [done|..].
  - unfold pretty, pretty_positive, pretty, pretty_N. case_decide; [done|].
    by apply pretty_N_go_no_slash.
  - change ("-" +:+ pretty p) with (String "-" (pretty p)).
    cbn [strings_Contains]. rewrite HasPrefix_slash_cons. cbn [Ascii.eqb orb].
    unfold pretty, pretty_positive, pretty, pretty_N. case_decide; [done|].
    by apply pretty_N_go_no_slash.
Qed.

Lemma strings_Join_app base extra sep :
  base <> [] -> extra <> [] ->
  strings_Join (base ++ extra) sep
  = strings_Join base sep +:+ sep +:+ strings_Join extra sep.
Proof.
  intros Hb He. induction base as [|e [|e' base] IH]; [done|..].
  - destruct extra; [done|]. reflexivity.
  - change (strings_Join ((e :: e' :: base) ++ extra) sep)
      with (e +:+ sep +:+ strings_Join ((e' :: base) ++ extra) sep).
    rewrite IH by done.
    change (strings_Join (e :: e' :: base) sep)
      with (e +:+ sep +:+ strings_Join (e' :: base) sep).
    by rewrite !append_assoc.
Qed.

Lemma path_of_elems_app (rooted : bool) base extra :
  base <> [] -> extra <> [] ->
  path_of_elems rooted (base ++ extra)
  = path_of_elems rooted base +:+ "/" +:+ strings_Join extra "/".
Proof.
  intros Hb He. unfold path_of_elems. rewrite strings_Join_app by done.
  destruct rooted; [by rewrite append_assoc|].
  destruct base; [done|]. reflexivity.
Qed.

(** A name free of [..] joined to a clean directory stays below it. *)
Lemma Join_below dir fileName :
  filepath_Clean dir = dir -> clean_elems dir <> [] ->
  strings_Contains fileName ".." = false ->
  below dir (filepath_Join [dir; fileName]).
Proof.
  intros Hclean Hne Hno.
  assert (Hdir : dir <> "") by (intros ->; done).
  rewrite Join_contained by done.
  pose proof (Clean_elems dir Hdir) as Hc. rewrite Hclean in Hc.
  destruct (filter _ (split_byte "/" fileName)) as [|x extra] eqn:Hx.
  - left. by rewrite app_nil_r.
  - right. rewrite path_of_elems_app by done. rewrite <- Hc.
    rewrite <- append_assoc. apply HasPrefix_app.
Qed.

End Paths.

(** X7.  For a working directory in clean form that is not a root, the
    file the server reads for a registered stream is the working
    directory itself or lies below it, whatever name free of [..] is
    requested. *)
Theorem served_path_below (w : World) (streamID fileName : string) (info : addr)
    (rec : StreamInfo) :
  strings_Contains streamID "/" = false ->
  strings_Contains fileName ".." = false ->
  points_to w streamID info rec ->
  filepath_Clean (HlsDir rec) = HlsDir rec -> clean_elems (HlsDir rec) <> [] ->
  exists path,
    ServeHTTP (segment_request "GET" streamID fileName) w
    = (Ret (http_ServeFile cors_header path), w, []) /\
    below (HlsDir rec) path.
Proof.
  intros Hid Hno [Hs Hh] Hclean Hne. exists (filepath_Join [HlsDir rec; fileName]).
  split; [|by apply Join_below].
  rewrite ServeHTTP_segment by done. by rewrite Hs, Hno, Hh.
Qed.

Lemma served_path_below_witness :
  exists path,
    ServeHTTP (segment_request "GET" "17" "a/./b//segment000.ts") Sample.w_ready
    = (Ret (http_ServeFile cors_header path), Sample.w_ready, []) /\
    below "/tmp/torrent-hls-service1/hls-17-001" path.
Proof.
  pose (rec := default (new_StreamInfo "" "") (heap Sample.w_ready !! 0%nat)).
  assert (Hne : clean_elems (HlsDir rec) <> []) by (vm_compute; discriminate).
  exact (served_path_below Sample.w_ready "17" "a/./b//segment000.ts" 0%nat rec
           eq_refl eq_refl (conj eq_refl eq_refl) eq_refl Hne).
Defined.


(* ===================================================================== *)
(** ** What a run of the pipeline touches *)
(* ===================================================================== *)

Section Effects.

Implicit Types (w : World) (streamID : string) (info : addr) (r : StreamInfo).

Lemma transcodeToHLS_effects env ctx streamID file hlsDir w :
  exists w', transcodeToHLS env ctx streamID file hlsDir w = (transcode_result env ctx, w', []) /\
             streams w' = streams w /\ heap w' = heap w /\ dirs w' = dirs w /\
             files w' = files w /\
             procs w' = transcode_procs env hlsDir (procs w).
Proof.
  destruct (transcodeToHLS_run env ctx streamID file hlsDir w)
    as (w' & Hrun & Hs & Hh & Hd & Hf).
  exists w'. repeat (split; [done|]). unfold transcode_procs.
  destruct (cmd_StderrPipe env) as [e|] eqn:Hpipe.
  { revert Hrun. unfold transcodeToHLS. rewrite Hpipe. by intros [= _ <-]. }
  destruct (cmd_Start env) as [e|] eqn:Hstart.
  { revert Hrun. unfold transcodeToHLS. rewrite Hpipe, Hstart. by intros [= _ <-]. }
  destruct (transcodeToHLS_started env ctx streamID file hlsDir w Hpipe Hstart)
    as (w'' & Hrun' & _ & _ & _ & Hp).
  rewrite Hrun in Hrun'. by injection Hrun' as ->.
Qed.

(** The pipeline of a registered stream: the objects it leaves alone,
    how it ends, and the directories, files and processes it leaves. *)
Lemma manageStream_effects s env ctx streamID t w info r :
  points_to w streamID info r ->
  let res := manageStream s env ctx streamID t w in
  Forall (only_touches info w) (world_of res :: trace_of res) /\
  match reaches_transcoder s env streamID t with
  | None =>
      outcome_of res = (if torrent_GotInfo t then Ret tt else Block) /\
      dirs (world_of res) = dirs w /\ files (world_of res) = files w /\
      procs (world_of res) = procs w
  | Some (_, hlsDir) =>
      procs (world_of res) = transcode_procs env hlsDir (procs w) /\
      match transcode_result env ctx with
      | Ret (Some _) =>
          outcome_of res = Ret tt /\
          dirs (world_of res) = (dirs w ∪ {[ hlsDir ]}) ∖ {[ hlsDir ]} /\
          files (world_of res)
          = filter (fun kv => strings_HasPrefix kv.1 (hlsDir +:+ "/") = false)
              (delete hlsDir (files w))
      | Ret None =>
          outcome_of res = Ret tt /\
          dirs (world_of res) = dirs w ∪ {[ hlsDir ]} /\ files (world_of res) = files w
      | _ =>
          outcome_of res = Block /\
          dirs (world_of res) = dirs w ∪ {[ hlsDir ]} /\ files (world_of res) = files w
      end
  end.
Proof.
  intros [Hs Hh]. cbv zeta.
  destruct (manageStream s env ctx streamID t w) as [[o wf] tr] eqn:Hrun.
  unfold outcome_of, world_of, trace_of. cbn [fst snd].
  revert Hrun. unfold manageStream, reaches_transcoder.
  destruct (torrent_GotInfo t); cbn [negb receive andb];
    [|intros [= <- <- <-]; split; [by touch_done Hs Hh|done]].
  unfold bindM at 1. unfold retM at 1.
  destruct (torrent_Info t); cbn [negb].
  2:{ rewrite (updateStreamState_found _ _ info) by done.
      cbn zeta. intros [= <- <- <-]; split; [by touch_done Hs Hh|done]. }
  destruct (select_largest (torrent_Files t) None) as [largestFile|].
  2:{ rewrite (updateStreamState_found _ _ info) by done.
      cbn zeta. intros [= <- <- <-]; split; [by touch_done Hs Hh|done]. }
  unfold bindM at 1. unfold log_Printf at 1, effect at 1.
  unfold bindM at 1. rewrite (locked_assign_found _ _ info) by done.
  unfold bindM at 1. rewrite (updateStreamState_found _ _ info) by done.
  cbn zeta.
  destruct (os_MkdirTemp env (baseTempDir s) ("hls-" +:+ streamID +:+ "-")) as [hlsDir|err].
  2:{ rewrite (updateStreamState_found _ _ info) by done.
      cbn zeta. intros [= <- <- <-]; split; [by touch_done Hs Hh|done]. }
  unfold bindM at 1. unfold effect at 1.
  unfold bindM at 1. unfold log_Printf at 1, effect at 1.
  unfold bindM at 1. rewrite (locked_assign_found _ _ info) by done.
  unfold bindM at 1. rewrite (updateStreamState_found _ _ info) by done.
  cbn zeta. unfold bindM at 1.
  match goal with |- context [transcodeToHLS ?e ?c ?i ?f ?d ?W] =>
    destruct (transcodeToHLS_effects e c i f d W) as (w1 & -> & Hs1 & Hh1 & Hd1 & Hf1 & Hp1) end.
  cbn in Hs1, Hh1, Hd1, Hf1, Hp1.
  destruct (transcode_result env ctx) as [[err|]| |] eqn:Htr.
  - unfold bindM. rewrite (updateStreamState_found _ _ info) by congruence.
    cbn. intros [= <- <- <-]. split; [by touch_done Hs1 Hh1|].
    cbn. by rewrite Hp1, Hd1, Hf1.
  - rewrite (updateStreamState_found _ _ info) by congruence.
    cbn. intros [= <- <- <-]. split; [by touch_done Hs1 Hh1|].
    cbn. by rewrite Hp1, Hd1, Hf1.
  - exfalso. revert Htr. unfold transcode_result.
    by repeat case_match.
  - intros [= <- <- <-]. split; [by touch_done Hs1 Hh1|].
    by rewrite Hp1, Hd1, Hf1.
Qed.

Lemma updateStreamState_missing w streamID state err :
  streams w !! streamID = None ->
  updateStreamState streamID state err w = (Ret tt, w, [w]).
Proof. intros H. unfold updateStreamState, locked. by rewrite H. Qed.

(** The pipeline of an id the registry does not hold. *)
Lemma manageStream_missing s env ctx streamID t w :
  streams w !! streamID = None ->
  manageStream s env ctx streamID t w =
  if negb (torrent_GotInfo t) then (Block, w, [])
  else if negb (torrent_Info t) then (Ret tt, w, [w])
  else match select_largest (torrent_Files t) None with
       | None => (Ret tt, w, [w])
       | Some largestFile =>
           let w' := log_line ("[" +:+ streamID +:+ "] Selected largest file: "
                               +:+ file_Path largestFile +:+ " ("
                               +:+ Sprintf_d (file_Length largestFile) +:+ " bytes)") w in
           (Panic "invalid memory address or nil pointer dereference", w', [w'])
       end.
Proof.
  intros Hs. unfold manageStream.
  destruct (torrent_GotInfo t); cbn [negb receive]; [|done].
  unfold bindM at 1. unfold retM at 1.
  destruct (torrent_Info t); cbn [negb]; [|by rewrite updateStreamState_missing].
  destruct (select_largest (torrent_Files t) None) as [largestFile|];
    [|by rewrite updateStreamState_missing].
  unfold bindM at 1. unfold log_Printf at 1, effect at 1.
  unfold bindM at 1. unfold locked_assign, locked. cbn [streams log_line with_logged].
  by rewrite Hs.
Qed.








(** The pointers of a sound registry refer into the heap. *)
Lemma registry_ok_lt w streamID info :
  registry_ok w -> streams w !! streamID = Some info -> (info < List.length (heap w))%nat.
Proof.
  intros Hreg Hs. destruct (Hreg _ _ Hs) as (r & Hr & _).
  by eapply lookup_lt_Some.
Qed.

Lemma sound_w0 : sound Sample.w0.
Proof.
  split; [|constructor]. intros id info. cbn. by rewrite lookup_empty.
Qed.

Lemma sound_w_prepared : sound Sample.w_prepared.
Proof.
  by apply (respects_PrepareStream sound_kept Sample.svc Sample.background
              "magnet:?xt=urn:btih:c12f" 17 Sample.w0), sound_w0.
Qed.

End Effects.

(** X8.  A pipeline run for an id the registry does not hold.  It waits
    for ever when the metadata never arrives and returns quietly when the
    torrent has no metadata or no file; as soon as a file is selected it
    panics on the nil pointer it reads from the map.  In every case the
    registry, the records, the directories, the files and the processes
    are as before, in the world it leaves and in every world it
    publishes. *)
Theorem manageStream_unknown_id (s : HlsService) (env : Env) (ctx : Context)
    (streamID : string) (t : torrent_Torrent) (w : World) :
  streams w !! streamID = None ->
  let res := manageStream s env ctx streamID t w in
  outcome_of res
  = (if negb (torrent_GotInfo t) then Block
     else if negb (torrent_Info t) then Ret tt
     else match select_largest (torrent_Files t) None with
          | None => Ret tt
          | Some _ => Panic "invalid memory address or nil pointer dereference"
          end) /\
  Forall (fun w' => streams w' = streams w /\ heap w' = heap w /\ dirs w' = dirs w /\
                    files w' = files w /\ procs w' = procs w)
    (world_of res :: trace_of res).
Proof.
  intros Hs. cbv zeta. rewrite manageStream_missing by done.
  destruct (torrent_GotInfo t); cbn [negb]; [|split; [done|by repeat constructor]].
  destruct (torrent_Info t); cbn [negb]; [|split; [done|by repeat constructor]].
  destruct (select_largest (torrent_Files t) None); split; try done; by repeat constructor.
Qed.

Lemma manageStream_unknown_id_witness :
  let res := manageStream Sample.svc Sample.env_ok Sample.background "18" Sample.movie
               Sample.w_prepared in
  outcome_of res = Panic "invalid memory address or nil pointer dereference" /\
  Forall (fun w' => streams w' = streams Sample.w_prepared /\
                    heap w' = heap Sample.w_prepared /\
                    dirs w' = dirs Sample.w_prepared /\
                    files w' = files Sample.w_prepared /\
                    procs w' = procs Sample.w_prepared)
    (world_of res :: trace_of res).
Proof.
  exact (manageStream_unknown_id Sample.svc Sample.env_ok Sample.background "18" Sample.movie
           Sample.w_prepared eq_refl).
Defined.

(** X9.  A pipeline run works on its own stream only.  In a registry
    whose pointers refer to records carrying their own id, the run for
    [streamID] leaves the registry as it is and leaves the record of every
    other id as it is, in the world it ends in and in every world it
    publishes. *)
Theorem pipeline_isolated (s : HlsService) (env : Env) (ctx : Context)
    (streamID : string) (t : torrent_Torrent) (w : World) (other : string) :
  registry_ok w -> other <> streamID ->
  let res := manageStream s env ctx streamID t w in
  Forall (fun w' => streams w' = streams w /\
                    lookup_stream w' other = lookup_stream w other)
    (world_of res :: trace_of res).
Proof.
  intros Hreg Hne. cbv zeta.
  destruct (streams w !! streamID) as [info|] eqn:Hs.
  - destruct (Hreg _ _ Hs) as (r & Hr & Hid).
    destruct (manageStream_effects s env ctx streamID t w info r) as [Htouch _]; [done|].
    eapply Forall_impl; [exact Htouch|]. intros w' [Hs' Hh']. split; [done|].
    unfold lookup_stream. rewrite Hs'.
    destruct (streams w !! other) as [a|] eqn:Ha; [|done].
    apply Hh'. intros ->. destruct (Hreg _ _ Ha) as (r' & Hr' & Hid'). congruence.
  - rewrite manageStream_missing by done.
    destruct (torrent_GotInfo t); cbn [negb]; [|by repeat constructor].
    destruct (torrent_Info t); cbn [negb]; [|by repeat constructor].
    destruct (select_largest (torrent_Files t) None); by repeat constructor.
Qed.

Lemma pipeline_isolated_witness :
  let res := manageStream Sample.svc Sample.env_ok Sample.background "17" Sample.movie
               Sample.w_prepared in
  Forall (fun w' => streams w' = streams Sample.w_prepared /\
                    lookup_stream w' "18" = lookup_stream Sample.w_prepared "18")
    (world_of res :: trace_of res).
Proof.
  refine (pipeline_isolated Sample.svc Sample.env_ok Sample.background "17" Sample.movie
            Sample.w_prepared "18" _ _).
  - apply sound_w_prepared.
  - discriminate.
Defined.







(** X13.  What a transcoder run leaves.  It touches neither the registry
    nor the records and publishes no world.  It starts one process, with
    the arguments of the transcoder, when the pipe for the diagnostic
    output and the start both succeed, and none otherwise.  It waits for
    ever exactly when [cmd.Wait()] is reached and never returns; whenever
    it returns after a start, [cmd.Wait()] has returned and the process is
    recorded with the status it gave. *)
Theorem transcoder_accounting (env : Env) (ctx : Context) (streamID : string)
    (file : torrent_File) (hlsDir : string) (w : World) :
  let res := transcodeToHLS env ctx streamID file hlsDir w in
  let w' := world_of res in
  (streams w' = streams w /\ heap w' = heap w /\ trace_of res = []) /\
  proc_argv <$> procs w'
  = (proc_argv <$> procs w)
    ++ match cmd_StderrPipe env, cmd_Start env with
       | None, None => [ffmpeg_argv hlsDir]
       | _, _ => []
       end /\
  (outcome_of res = Block <->
   cmd_StderrPipe env = None /\ cmd_Start env = None /\ cmd_Wait env = WaitNever) /\
  (forall err, outcome_of res = Ret err ->
     procs w' = procs w \/
     exists status,
       cmd_Wait env = WaitReturns status /\
       procs w' = procs w ++ [{| proc_argv := ffmpeg_argv hlsDir;
                                 proc_state := Exited status |}]).
Proof.
  cbv zeta.
  destruct (transcodeToHLS_effects env ctx streamID file hlsDir w)
    as (w' & -> & Hs & Hh & Hd & Hf & Hp).
  unfold outcome_of, world_of, trace_of. cbn [fst snd].
  split; [done|]. rewrite Hp.
  unfold transcode_result, transcode_procs, state_after_wait.
  destruct (cmd_StderrPipe env) as [e|].
  { split; [by rewrite app_nil_r|]. split; [|by left]. split; [done|]. by intros [? _]. }
  destruct (cmd_Start env) as [e|].
  { split; [by rewrite app_nil_r|]. split; [|by left]. split; [done|]. by intros (_ & ? & _). }
  split; [by rewrite fmap_app|].
  destruct (cmd_Wait env) as [[e|]|].
  - split; [|right; eauto]. split; [by destruct (ctx_Err ctx)|]. by intros (_ & _ & ?).
  - split; [|right; eauto]. split; [done|]. by intros (_ & _ & ?).
  - split; [done|]. done.
Qed.

(* ===================================================================== *)
(** ** More on the creation of streams *)
(* ===================================================================== *)

(** X14.  Creating a stream leaves the other streams alone.  In a
    registry whose pointers refer to records, [PrepareStream] leaves the
    pointer and the record of every id other than the new one as they
    are, in the world it ends in and in every world it publishes. *)
Theorem PrepareStream_isolated (s : HlsService) (ctx : Context) (magnetURI : string)
    (now : Z) (w : World) (other : string) :
  registry_ok w -> other <> Sprintf_d now ->
  let res := PrepareStream s ctx magnetURI now w in
  Forall (fun w' => streams w' !! other = streams w !! other /\
                    lookup_stream w' other = lookup_stream w other)
    (world_of res :: trace_of res).
Proof.
  intros Hreg Hne. cbv zeta. rewrite PrepareStream_run. cbv zeta.
  destruct (AddMagnet (client s) magnetURI) as [t|err]; cbn [world_of trace_of fst snd];
    repeat apply Forall_cons_2; try apply Forall_nil_2;
    (split; [cbn; by rewrite lookup_insert_ne|]);
    unfold lookup_stream; cbn; rewrite lookup_insert_ne by done;
    (destruct (streams w !! other) as [a|] eqn:Ha; [|done]);
    pose proof (registry_ok_lt _ _ _ Hreg Ha);
    rewrite ?list_lookup_alter_ne by lia; by rewrite lookup_app_l.
Qed.

Lemma PrepareStream_isolated_witness :
  let res := PrepareStream Sample.svc Sample.background Sample.not_a_magnet 18
               Sample.w_prepared in
  Forall (fun w' => streams w' !! "17" = streams Sample.w_prepared !! "17" /\
                    lookup_stream w' "17" = lookup_stream Sample.w_prepared "17")
    (world_of res :: trace_of res).
Proof.
  refine (PrepareStream_isolated Sample.svc Sample.background Sample.not_a_magnet 18
            Sample.w_prepared "17" _ _).
  - apply sound_w_prepared.
  - discriminate.
Defined.



(* ===================================================================== *)
(** ** More on the handler of /add *)
(* ===================================================================== *)

Section AddHandlerFacts.

Implicit Types (h : TorrentHandler) (r : AddRequest) (w : World).


End AddHandlerFacts.

(** X16.  A request for /add with a method other than GET is answered
    405, and a GET without a magnet link 400; the method is checked
    first.  In both cases nothing else happens: no stream is registered,
    no pipeline is started, nothing is logged. *)
Theorem add_rejected_untouched (h : TorrentHandler) (r : AddRequest) (now : Z) (w : World) :
  add_Method r <> "GET" \/ add_magnet r = "" ->
  AddTorrentHandler h r now w
  = (Ret (if decide (add_Method r = "GET")
          then add_Error "Missing 'magnet' query parameter" 400
          else add_Error "Method not allowed" 405, None), w, []).
Proof.
  intros Hrej. unfold AddTorrentHandler.
  destruct (String.eqb_spec (add_Method r) "GET") as [Hget|Hget]; cbn [negb].
  - destruct Hrej as [?|Hmag]; [done|]. rewrite Hmag. by rewrite decide_True.
  - by rewrite decide_False.
Qed.

Lemma add_rejected_untouched_witness :
  AddTorrentHandler SampleService.handler SampleService.post_movie 17 Sample.w0
  = (Ret (add_Error "Method not allowed" 405, None), Sample.w0, []).
Proof.
  refine (add_rejected_untouched SampleService.handler SampleService.post_movie 17 Sample.w0 _).
  left. discriminate.
Defined.

Section AmongHandler.

Implicit Types (h : TorrentHandler) (r : AddRequest) (w : World) (others : M unit).

(** With no step in between, the handler is [AddTorrentHandler]. *)
Lemma AddTorrentHandler_among_alone h r now w :
  AddTorrentHandler_among (retM tt) h r now w = AddTorrentHandler h r now w.
Proof.
  unfold AddTorrentHandler_among, AddTorrentHandler.
  destruct (negb _); [done|]. cbv zeta. destruct (String.eqb _ _); [done|].
  unfold bindM at 1. unfold log_Printf at 1, effect at 1. cbv beta iota.
  symmetry. unfold bindM at 1. unfold log_Printf at 1, effect at 1. cbv beta iota.
  unfold bindM at 1. symmetry. unfold bindM at 1.
  by rewrite PrepareStream_among_alone.
Qed.

(** What the handler does with a GET that carries a magnet link, when the
    steps in between leave the id to its creation. *)
Lemma AddTorrentHandler_among_run others h r now w rec :
  add_Method r = "GET" -> add_magnet r <> "" ->
  let s := Handler_HlsService h in
  let magnetURI := add_magnet r in
  let streamID := Sprintf_d now in
  let w0 := log_line ("Received request to add magnet: " +:+ magnetURI) w in
  undisturbed others streamID magnetURI w0 rec ->
  let created := PrepareStream_among others s (add_Context r) magnetURI now w0 in
  AddTorrentHandler_among others h r now w =
  match AddMagnet (client s) magnetURI with
  | Err err =>
      let e := Errorf_w "error adding magnet: " err in
      (Ret (add_Error ("Error preparing stream: " +:+ e) 500, None),
       log_line ("Error preparing stream: " +:+ e) (world_of created), trace_of created)
  | Ok t =>
      let hlsURL := hls_url (Handler_ListenAddr h) (ID rec) in
      (Ret (add_JSON [("streamId", ID rec); ("hlsUrl", hlsURL);
                      ("status", "getting_info")],
            Some (go_manageStream (add_Context r) streamID t)),
       log_line ("Stream " +:+ ID rec +:+ " prepared. HLS URL: " +:+ hlsURL)
         (world_of created),
       trace_of created)
  end.
Proof.
  intros Hget Hmag. cbv zeta. intros Hund. unfold AddTorrentHandler_among. cbv zeta.
  rewrite Hget, String.eqb_refl. cbn [negb].
  destruct (String.eqb_spec (add_magnet r) ""); [done|].
  unfold bindM at 1. unfold log_Printf at 1, effect at 1. cbv beta iota.
  unfold bindM at 1.
  rewrite (PrepareStream_among_run others _ _ _ now _ rec Hund). cbv zeta.
  destruct Hund as [_ [Hs Hh]]. revert Hs Hh. cbn [heap log_line with_logged].
  generalize (world_of (others (world_of
    (register_stream (Sprintf_d now) (add_magnet r)
       (log_line ("Received request to add magnet: " +:+ add_magnet r) w))))).
  intros w2 Hs Hh.
  destruct (AddMagnet (client (Handler_HlsService h)) (add_magnet r)) as [t|err];
    cbn -[String.append]; [|by rewrite ?app_nil_r].
  unfold bindM, load, log_Printf, effect, retM.
  cbn [heap log_line with_logged with_heap with_streams].
  repeat (rewrite !list_lookup_alter_eq, Hh; cbn -[String.append]).
  by rewrite ?app_nil_r.
Qed.

End AmongHandler.



(** X18.  When the client accepts the magnet link of a GET request, and
    the steps of other goroutines between the two critical sections of
    the creation leave the id with the record it created, still carrying
    its id, the handler answers with the new id, with the URL
    [http://<listen address>/hls/<id>/playlist.m3u8] and, nothing having
    written the record before the handler reads it, with the status
    [getting_info]; one pipeline is started for the id.  The path of that
    URL splits into [hls], the id and [playlist.m3u8], and the id is
    registered with the new record. *)
Theorem add_url_resolves (others : M unit) (h : TorrentHandler) (r : AddRequest) (now : Z)
    (w : World) (t : torrent_Torrent) (rec : StreamInfo) :
  add_Method r = "GET" -> add_magnet r <> "" ->
  AddMagnet (client (Handler_HlsService h)) (add_magnet r) = Ok t ->
  undisturbed others (Sprintf_d now) (add_magnet r)
    (log_line ("Received request to add magnet: " +:+ add_magnet r) w) rec ->
  ID rec = Sprintf_d now ->
  let res := AddTorrentHandler_among others h r now w in
  let streamID := Sprintf_d now in
  let playlist := segment_request "GET" streamID "playlist.m3u8" in
  outcome_of res
  = Ret (add_JSON [("streamId", streamID);
                   ("hlsUrl", "http://" +:+ Handler_ListenAddr h +:+ URL_Path playlist);
                   ("status", "getting_info")],
         Some (go_manageStream (add_Context r) streamID t)) /\
  observed_state streamID (world_of res) = Some StateGettingInfo /\
  strings_SplitN (strings_TrimPrefix (URL_Path playlist) "/") "/" 3
  = ["hls"; streamID; "playlist.m3u8"] /\
  GetStreamInfo streamID (world_of res) = (Some (List.length (heap w)), true).
Proof.
  intros Hget Hmag Hok Hund Hid. cbv zeta.
  rewrite (AddTorrentHandler_among_run others h r now w rec Hget Hmag Hund), Hok. cbv zeta.
  rewrite (PrepareStream_among_run others _ _ _ now _ rec Hund), Hok. cbv zeta.
  destruct Hund as [_ [Hs Hh]]. revert Hs Hh. cbn [heap log_line with_logged].
  generalize (world_of (others (world_of
    (register_stream (Sprintf_d now) (add_magnet r)
       (log_line ("Received request to add magnet: " +:+ add_magnet r) w))))).
  intros w2 Hs Hh. rewrite Hid. split; [reflexivity|].
  unfold observed_state, lookup_stream, GetStreamInfo. cbn -[String.append].
  rewrite Hs, !list_lookup_alter_eq, Hh. cbn -[String.append].
  split; [done|]. split; [|done].
  apply split_hls_path, Sprintf_d_no_slash.
Qed.

Lemma add_url_resolves_witness :
  let res := AddTorrentHandler_among SampleService.other_clock_creation
               SampleService.handler SampleService.add_movie 17 Sample.w0 in
  let playlist := segment_request "GET" (Sprintf_d 17) "playlist.m3u8" in
  outcome_of res
  = Ret (add_JSON [("streamId", Sprintf_d 17);
                   ("hlsUrl", "http://" +:+ "localhost:8080" +:+ URL_Path playlist);
                   ("status", "getting_info")],
         Some (go_manageStream Sample.background (Sprintf_d 17) Sample.movie)) /\
  observed_state (Sprintf_d 17) (world_of res) = Some StateGettingInfo /\
  strings_SplitN (strings_TrimPrefix (URL_Path playlist) "/") "/" 3
  = ["hls"; Sprintf_d 17; "playlist.m3u8"] /\
  GetStreamInfo (Sprintf_d 17) (world_of res) = (Some (List.length (heap Sample.w0)), true).
Proof.
  refine (add_url_resolves SampleService.other_clock_creation SampleService.handler
            SampleService.add_movie 17 Sample.w0 Sample.movie
            (new_StreamInfo (Sprintf_d 17) "magnet:?xt=urn:btih:c12f") eq_refl _ eq_refl _
            eq_refl).
  - discriminate.
  - split; [reflexivity|]. split; reflexivity.
Defined.

(** The reply of the sample request, spelled out. *)
Example add_movie_reply :
  outcome_of (AddTorrentHandler SampleService.handler SampleService.add_movie 17 Sample.w0)
  = Ret (add_JSON [("streamId", "17");
                   ("hlsUrl", "http://localhost:8080/hls/17/playlist.m3u8");
                   ("status", "getting_info")],
         Some (go_manageStream Sample.background "17" Sample.movie)).
Proof. vm_compute. reflexivity. Qed.




